(** * tama-tools: chain-state and chain-history access layer

    A shallow embedding of the TypeScript snippets of the repository
    (binary search for a token's creation block, the creation-event lookup
    of [getTokenMetadata], the launch orchestration of
    [createTokenOnContract], the bonding-curve price helper and the error
    classifiers, then the pool read, the image upload and the complete
    workflow built on them), followed by the properties proved about
    them.

    Conventions.  A JavaScript [number] that holds a block number or an
    HTTP status is the integer of [Z] it holds.  In the binary search of
    [findTokenCreationBlock], whose progress depends on it, the sums and
    differences of block numbers are rounded to 53 significant bits as
    binary64 rounds them ([JS.number_add], [JS.number_sub]).  In the
    event-query windows of [getTokenMetadata] the arithmetic is that of
    [Z], which is the source's for every chain head below 2^53, the range
    of the block numbers ethers reports.  The one place where the source
    divides doubles, [calculateCurrentPrice], uses IEEE binary64 values
    ([spec_float]).  A [bigint] is a [Z]; a thrown exception is the [Err]
    branch of [Result]; an [await] is the place where the awaited call's
    result or exception is obtained. *)

From Stdlib Require Import ZArith Ascii String DecimalString DecimalPos DecimalZ Floats.SpecFloat.
From stdpp Require Import base option numbers list strings gmap.
#[local] Set Warnings "-register-all".
Local Open Scope Z_scope.

(** ** Exceptions as results *)

Inductive Result (E A : Type) : Type :=
| Ok (a : A)
| Err (e : E).
Arguments Ok {E A} a.
Arguments Err {E A} e.

#[global] Instance result_ret {E} : MRet (Result E) := fun A a => Ok a.

#[global] Instance result_bind {E} : MBind (Result E) :=
  fun A B k m => match m with Ok a => k a | Err e => Err e end.

#[global] Instance result_fmap {E} : FMap (Result E) :=
  fun A B f m => match m with Ok a => Ok (f a) | Err e => Err e end.

(** ** The JavaScript values the snippets inspect dynamically *)

Module JS.

(** Values of type [any].  Functions, arrays and accessor properties are
    not part of the model; numbers are the integer-valued ones. *)
Inductive JSValue : Type :=
| JSUndefined
| JSNull
| JSBool (b : bool)
| JSNum (n : Z)
| JSStr (s : string)
| JSObj (fields : gmap string JSValue).

(** Thrown values: an instance of a built-in error class, by class and
    message, or any other value ([throw] takes any value, and so does the
    rejection of a promise). *)
Inductive Exception : Type :=
| Error (message : string)
| TypeError (message : string)
| RangeError (message : string)
| Thrown (v : JSValue).

(** ToBoolean *)
Definition truthy (v : JSValue) : bool :=
  match v with
  | JSUndefined | JSNull => false
  | JSBool b => b
  | JSNum n => negb (n =? 0)
  | JSStr s => negb (String.eqb s "")
  | JSObj _ => true
  end.

(** [v?.k]: a missing property, and any property of [null], [undefined]
    or of a primitive that has none of that name, reads as [undefined]. *)
Definition opt_get (v : JSValue) (k : string) : JSValue :=
  match v with
  | JSObj fields => default JSUndefined (fields !! k)
  | _ => JSUndefined
  end.

(** [a || b] on values *)
Definition or_value (a b : JSValue) : JSValue := if truthy a then a else b.

(** [String.prototype.includes] *)
Fixpoint includes (s pat : string) : bool :=
  String.prefix pat s ||
  match s with
  | EmptyString => false
  | String _ s' => includes s' pat
  end.

(** [v.includes(pat)] for a value of type [any]: only strings have the
    method here, on anything else the call throws. *)
Definition call_includes (v : JSValue) (pat : string) : Result Exception bool :=
  match v with
  | JSStr s => Ok (includes s pat)
  | _ => Err (TypeError "errorMessage.includes is not a function")
  end.

(** [a || b] on conditions: [b] is evaluated only when [a] is false. *)
Definition or_lazy (a b : Result Exception bool) : Result Exception bool :=
  x ← a; if (x : bool) then Ok true else b.

(** [v === n] for a number literal [n] *)
Definition strict_eq_num (v : JSValue) (n : Z) : bool :=
  match v with
  | JSNum m => m =? n
  | _ => false
  end.

Definition digit_of (c : ascii) : option Z :=
  let n := Z.of_N (N_of_ascii c) in
  if (48 <=? n) && (n <=? 57) then Some (n - 48) else None.

(** Value of a string of decimal digits, continuing from [acc]. *)
Fixpoint digits_acc (acc : Z) (s : string) : option Z :=
  match s with
  | EmptyString => Some acc
  | String c s' =>
      match digit_of c with
      | Some d => digits_acc (10 * acc + d) s'
      | None => None
      end
  end.

Definition digits_value (s : string) : option Z := digits_acc 0 s.

(** ToNumber, [None] standing for NaN.  Strings are converted when they
    are empty or plain decimal digits; every other string is taken as
    NaN. *)
Definition to_number (v : JSValue) : option Z :=
  match v with
  | JSUndefined => None
  | JSNull => Some 0
  | JSBool b => Some (if b then 1 else 0)
  | JSNum n => Some n
  | JSStr s => digits_value s
  | JSObj _ => None
  end.

(** [v >= n] for a number literal [n] *)
Definition ge_num (v : JSValue) (n : Z) : bool :=
  match to_number v with
  | Some m => n <=? m
  | None => false
  end.

(** [bigint.toString()] and [BigInt(string)] on decimal numerals *)
Definition bigint_toString (z : Z) : string := NilZero.string_of_int (Z.to_int z).

Definition BigInt_of_string (s : string) : option Z :=
  Z.of_int <$> NilZero.int_of_string s.

(** ToString, as a template literal applies it *)
Definition to_string (v : JSValue) : string :=
  match v with
  | JSUndefined => "undefined"
  | JSNull => "null"
  | JSBool b => if b then "true" else "false"
  | JSNum n => bigint_toString n
  | JSStr s => s
  | JSObj _ => "[object Object]"
  end.

(** Doubles: IEEE binary64, round to nearest even. *)
Definition SFprec : Z := 53.
Definition SFemax : Z := 1024.

(** [Number(bigint)], also the value of an integer literal *)
Definition Number_of_bigint (z : Z) : spec_float :=
  binary_normalize SFprec SFemax z 0 false.

(** The integer [Math.floor] yields on a finite double. *)
Definition floor_finite (s : bool) (m : positive) (e : Z) : Z :=
  let n := if s then Z.neg m else Z.pos m in
  if 0 <=? e then n * 2 ^ e else n `div` 2 ^ (- e).

(** [Math.floor]: NaN, the infinities and the zeros are returned as they
    are. *)
Definition Math_floor (x : spec_float) : spec_float :=
  match x with
  | S754_finite s m e =>
      if 0 <=? e then x
      else match floor_finite s m e with
           | Z0 => S754_zero s
           | n => binary_normalize SFprec SFemax n 0 false
           end
  | _ => x
  end.

(** [BigInt(number)]: a RangeError unless the number is an integer (the
    message is kept without the numeral). *)
Definition BigInt_of_number (x : spec_float) : Result Exception Z :=
  let not_an_integer :=
    Err (RangeError "The number cannot be converted to a BigInt because it is not an integer") in
  match x with
  | S754_zero _ => Ok 0
  | S754_finite s m e =>
      if (0 <=? e) || (Z.pos m `mod` 2 ^ (- e) =? 0)
      then Ok (floor_finite s m e)
      else not_an_integer
  | S754_infinity _ | S754_nan => not_an_integer
  end.

(** Doubles that hold an integer, as the integer they hold.  A sum or a
    difference of two of them is the exact result rounded to 53
    significant bits, ties to the even significand, which is what binary64
    does.  The exponent range is not modelled: no value met in the
    snippets comes near 2^1023.

    [ulp a] is the distance between the doubles around [a >= 0]. *)
Definition ulp (a : Z) : Z := 2 ^ Z.max 0 (Z.log2 a - 52).

Definition round_nonneg (a : Z) : Z :=
  let u := ulp a in
  let q := a `div` u in
  let r := a `mod` u in
  if 2 * r <? u then q * u
  else if u <? 2 * r then (q + 1) * u
  else if Z.even q then q * u else (q + 1) * u.

(** The double nearest to the integer [z]. *)
Definition to_double (z : Z) : Z :=
  if z <? 0 then - round_nonneg (- z) else round_nonneg z.

(** [a + b] and [a - b] on numbers *)
Definition number_add (a b : Z) : Z := to_double (a + b).
Definition number_sub (a b : Z) : Z := to_double (a - b).

(** The integers [a >= 0] that are doubles. *)
Definition representable (a : Z) : Prop := a `mod` ulp a = 0.

End JS.

(** ** token-find-creation-block.ts / test-token-info-optimized.ts *)

Module CreationBlock.
Import JS.

(** The two provider calls the function uses.  [getCode] receives the
    number of [getCode] calls answered before it, so that the answer may
    change from one call to the next (a flaky RPC endpoint), the
    address, and the block tag ([None] is the default tag, 'latest').
    [getBlockNumber] gives a number that holds an integer. *)
Record Provider : Type := {
  getCode : nat -> string -> option Z -> Result Exception string;
  getBlockNumber : Result Exception Z
}.

(** The mutable locals of the loop; [foundBlock = None] is [null]. *)
Record LoopState : Type := {
  lowBlock : Z;
  highBlock : Z;
  foundBlock : option Z
}.

Definition initial (latestBlock : Z) : LoopState :=
  {| lowBlock := 0; highBlock := latestBlock; foundBlock := None |}.

(** [Math.floor((lowBlock + highBlock) / 2)]: the sum is rounded as a
    double is, halving a double is exact. *)
Definition midBlock (s : LoopState) : Z :=
  number_add (lowBlock s) (highBlock s) `div` 2.

(** [while (lowBlock <= highBlock)] *)
Definition loop_cond (s : LoopState) : bool := lowBlock s <=? highBlock s.

(** One iteration, given what [getCode(tokenAddress, midBlock)] did. *)
Definition loop_body (probe : Result Exception string) (s : LoopState) : LoopState :=
  let mid := midBlock s in
  match probe with
  | Ok codeAtBlock =>
      if String.eqb codeAtBlock "0x"
      then {| lowBlock := number_add mid 1; highBlock := highBlock s;
              foundBlock := foundBlock s |}
      else {| lowBlock := lowBlock s; highBlock := number_sub mid 1;
              foundBlock := Some mid |}
  | Err _ =>
      (* catch: assume the block is too early *)
      {| lowBlock := number_add mid 1; highBlock := highBlock s;
         foundBlock := foundBlock s |}
  end.

(** The loop; [None] when [fuel] iterations were not enough to leave it. *)
Fixpoint while_loop (fuel : nat) (p : Provider) (tokenAddress : string)
    (calls : nat) (s : LoopState) : option LoopState :=
  if loop_cond s then
    match fuel with
    | O => None
    | S fuel' =>
        while_loop fuel' p tokenAddress (S calls)
          (loop_body (getCode p calls tokenAddress (Some (midBlock s))) s)
    end
  else Some s.

(** Number of blocks still inside [lowBlock .. highBlock]. *)
Definition interval_width (s : LoopState) : Z :=
  Z.max 0 (highBlock s - lowBlock s + 1).

(** Iterations that always suffice when the search starts at a
    [latestBlock] below 2^53. *)
Definition enough_fuel (latestBlock : Z) : nat := Z.to_nat (latestBlock + 1).

(** The loop is never left from [s]: no number of iterations is enough. *)
Definition never_leaves (p : Provider) (tokenAddress : string) (calls : nat)
    (s : LoopState) : Prop :=
  forall fuel : nat, while_loop fuel p tokenAddress calls s = None.

Definition findTokenCreationBlock (fuel : nat) (p : Provider) (tokenAddress : string)
    : option (Result Exception Z) :=
  match getCode p O tokenAddress None with
  | Err e => Some (Err e)
  | Ok code =>
      if String.eqb code "0x" then Some (Err (Error "Address is not a contract"))
      else
        match getBlockNumber p with
        | Err e => Some (Err e)
        | Ok latestBlock =>
            match while_loop fuel p tokenAddress 1%nat (initial latestBlock) with
            | None => None
            | Some s =>
                match foundBlock s with
                | None => Some (Err (Error "Could not determine creation block"))
                | Some b => Some (Ok b)
                end
            end
        end
  end.

(** [p] answers every probe for [tokenAddress] as the code-presence
    oracle [hasCode] says, the default tag standing for [latestBlock]. *)
Definition code_oracle (p : Provider) (tokenAddress : string) (latestBlock : Z)
    (hasCode : Z -> bool) : Prop :=
  getBlockNumber p = Ok latestBlock /\
  forall (calls : nat) (tag : option Z),
    exists code, getCode p calls tokenAddress tag = Ok code /\
                 String.eqb code "0x" = negb (hasCode (default latestBlock tag)).

(** What the loop keeps true when the creation block is [K]: [K] lies in
    [lowBlock .. highBlock + 1], and [foundBlock] is [highBlock + 1] as soon
    as [highBlock] has moved. *)
Definition search_inv (latestBlock K : Z) (s : LoopState) : Prop :=
  0 <= lowBlock s <= K /\ K <= highBlock s + 1 /\ highBlock s <= latestBlock /\
  (foundBlock s = Some (highBlock s + 1) \/
   (highBlock s = latestBlock /\ foundBlock s = None)).

(** A synthetic backend: code exists exactly where [hasCode] says. *)
Definition oracle_provider (hasCode : Z -> bool) (latestBlock : Z) : Provider :=
  {| getCode := fun _ _ tag =>
       let b := match tag with Some b => b | None => latestBlock end in
       Ok (if hasCode b then "0x6080604052" else "0x");
     getBlockNumber := Ok latestBlock |}.

(** A backend whose probes report code, fail and report none in turn. *)
Definition flaky_provider (latestBlock : Z) : Provider :=
  {| getCode := fun calls _ _ =>
       match Nat.modulo calls 3 with
       | O => Ok "0x6080604052"
       | S O => Err (Error "timeout")
       | _ => Ok "0x"
       end;
     getBlockNumber := Ok latestBlock |}.

End CreationBlock.

(** ** The ethers calls the snippets rely on

    [ethers] is an external library.  Its functions are modelled after
    their documented behaviour: [parseEther] and [formatEther] are
    [parseUnits] and [formatUnits] at 18 decimals, over 512-bit signed
    fixed-point values. *)

Module Ethers.
Import JS.

(** [ethers.ZeroHash]: 0x followed by 64 zeros *)
Definition ZeroHash : string :=
  "0x0000000000000000000000000000000000000000000000000000000000000000".

Definition is_digit (c : ascii) : bool := bool_decide (is_Some (digit_of c)).

(** The longest prefix of decimal digits, and what follows it. *)
Fixpoint span_digits (s : string) : string * string :=
  match s with
  | EmptyString => (EmptyString, EmptyString)
  | String c s' =>
      if is_digit c
      then let '(ds, rest) := span_digits s' in (String c ds, rest)
      else (EmptyString, s)
  end.

Fixpoint zeros (n : nat) : string :=
  match n with
  | O => EmptyString
  | S n' => String "0" (zeros n')
  end.

Fixpoint all_zeros (s : string) : bool :=
  match s with
  | EmptyString => true
  | String c s' => Ascii.eqb c "0" && all_zeros s'
  end.

(** Values a 512-bit signed fixed-point number can hold. *)
Definition in_range_512 (v : Z) : bool := (- 2 ^ 511 <=? v) && (v <? 2 ^ 511).

(** An optional leading minus sign. *)
Definition split_sign (value : string) : bool * string :=
  match value with
  | String "-" r => (true, r)
  | _ => (false, value)
  end.

(** An optional leading point. *)
Definition skip_point (s : string) : string :=
  match s with
  | String "." r => r
  | _ => s
  end.

(** [parseUnits(value, decimals)]: the text must be an optional minus
    sign, digits, an optional point and digits, with one digit at least;
    the fraction is padded with zeros to [decimals] digits, digits beyond
    them must be zeros, and sign, whole part and fraction are read as one
    integer.

    ethers throws a TypeError for an invalid argument and a RangeError
    for a numeric fault.  The message is kept as its leading words: the
    details ethers appends in brackets (the rejected value, the error
    code, the library version) are left out. *)
Definition parseUnits (value : string) (decimals : nat) : Result Exception Z :=
  let '(negative, s1) := split_sign value in
  let '(whole, s2) := span_digits s1 in
  let '(decimal, s4) := span_digits (skip_point s2) in
  if negb (String.eqb s4 "") || Nat.eqb (String.length whole + String.length decimal) 0
  then Err (TypeError "invalid FixedNumber string value")
  else
    let whole := if String.eqb whole "" then "0" else whole in
    let padded := decimal +:+ zeros (decimals - String.length decimal) in
    if negb (all_zeros (String.substring decimals (String.length padded - decimals) padded))
    then Err (RangeError "too many decimal places")
    else
      match digits_value (whole +:+ String.substring 0 decimals padded) with
      | None => Err (TypeError "invalid FixedNumber string value")
      | Some n =>
          let val := if (negative : bool) then - n else n in
          if in_range_512 val then Ok val else Err (RangeError "overflow")
      end.

Definition parseEther (ether : string) : Result Exception Z := parseUnits ether 18.

Fixpoint strip_trailing_zeros (s : string) : string :=
  match s with
  | EmptyString => EmptyString
  | String c s' =>
      match strip_trailing_zeros s' with
      | EmptyString => if Ascii.eqb c "0" then EmptyString else String c EmptyString
      | t => String c t
      end
  end.

(** [formatUnits(value, decimals)] for [decimals > 0]: whole part, a
    point, and the fraction without trailing zeros but with one digit at
    least; a RangeError when the value does not fit 512 bits. *)
Definition formatUnits (value : Z) (decimals : nat) : Result Exception string :=
  if in_range_512 value then
    let val := Z.abs value in
    let tens := 10 ^ Z.of_nat decimals in
    let frac := bigint_toString (val `mod` tens) in
    let frac := zeros (decimals - String.length frac) +:+ frac in
    let frac := match strip_trailing_zeros frac with
                | EmptyString => "0"
                | t => t
                end in
    Ok ((if value <? 0 then "-" else "") +:+ bigint_toString (val `div` tens) +:+ "." +:+ frac)
  else Err (RangeError "overflow").

Definition formatEther (wei : Z) : Result Exception string := formatUnits wei 18.

End Ethers.

(** ** utils/errorHandling.ts *)

Module ErrorHandling.
Import JS.

Inductive TokenCreationErrorType : Type :=
| UPLOAD_FAILED
| AUTHENTICATION_ERROR
| INSUFFICIENT_FUNDS
| TRANSACTION_FAILED
| CONTRACT_ERROR
| USER_REJECTED
| NETWORK_ERROR
| UNKNOWN_ERROR.

(** [class TokenCreationError extends Error] *)
Record TokenCreationError : Type := {
  type : TokenCreationErrorType;
  message : string;
  originalError : JSValue
}.

(** [error?.message || ''] *)
Definition raw_message (error : JSValue) : JSValue :=
  or_value (opt_get error "message") (JSStr "").

Definition parseBlockchainError (error : JSValue) : Result Exception TokenCreationError :=
  let errorMessage := raw_message error in
  c1 ← call_includes errorMessage "insufficient funds";
  if (c1 : bool) then
    Ok {| type := INSUFFICIENT_FUNDS;
          message := "You do not have enough RON to complete this transaction. Make sure you have enough for gas fees plus the creation fee and initial liquidity.";
          originalError := error |}
  else
  c2 ← or_lazy (call_includes errorMessage "user rejected")
               (call_includes errorMessage "User denied");
  if (c2 : bool) then
    Ok {| type := USER_REJECTED;
          message := "You rejected the transaction in your wallet. Please try again and approve the transaction.";
          originalError := error |}
  else
  c3 ← or_lazy (call_includes errorMessage "network")
               (call_includes errorMessage "timeout");
  if (c3 : bool) then
    Ok {| type := NETWORK_ERROR;
          message := "Network error occurred. Please check your internet connection and try again.";
          originalError := error |}
  else
  c4 ← or_lazy (call_includes errorMessage "InsufficientOutput")
               (call_includes errorMessage "InvalidAmountIn");
  if (c4 : bool) then
    Ok {| type := CONTRACT_ERROR;
          message := "Invalid initial amount. Please make sure you are providing a valid amount for initial liquidity.";
          originalError := error |}
  else
  c5 ← call_includes errorMessage "InvalidTokenMetadata";
  if (c5 : bool) then
    Ok {| type := CONTRACT_ERROR;
          message := "Invalid token metadata. Please check that all token details (name, symbol, etc.) are properly formatted.";
          originalError := error |}
  else
    Ok {| type := UNKNOWN_ERROR;
          message := "An unexpected error occurred: " +:+ to_string errorMessage;
          originalError := error |}.

Definition parseUploadError (error : JSValue) : Result Exception TokenCreationError :=
  let status := or_value (opt_get error "status") (JSNum 0) in
  let errorMessage := raw_message error in
  c1 ← or_lazy (Ok (strict_eq_num status 401))
       (or_lazy (Ok (strict_eq_num status 403))
                (call_includes errorMessage "unauthorized"));
  if (c1 : bool) then
    Ok {| type := AUTHENTICATION_ERROR;
          message := "Authentication failed. Please make sure you are logged in to tama.meme.";
          originalError := error |}
  else
  c2 ← or_lazy (Ok (strict_eq_num status 413))
               (call_includes errorMessage "too large");
  if (c2 : bool) then
    Ok {| type := UPLOAD_FAILED;
          message := "Image file is too large. Please use an image smaller than 1MB.";
          originalError := error |}
  else
  c3 ← or_lazy (call_includes errorMessage "network")
       (or_lazy (Ok (strict_eq_num status 0))
                (Ok (ge_num status 500)));
  if (c3 : bool) then
    Ok {| type := NETWORK_ERROR;
          message := "Network error during upload. Please check your internet connection and try again.";
          originalError := error |}
  else
    Ok {| type := UPLOAD_FAILED;
          message := "Failed to upload image: " +:+ to_string errorMessage;
          originalError := error |}.

(** The substrings [parseBlockchainError] looks for, in the order of its
    rules. *)
Definition blockchain_patterns : list string :=
  [ "insufficient funds"; "user rejected"; "User denied"; "network"; "timeout";
    "InsufficientOutput"; "InvalidAmountIn"; "InvalidTokenMetadata" ].

(** No rule of [parseBlockchainError] matches the text [m]. *)
Definition matches_no_rule (m : string) : Prop :=
  Forall (fun pat => includes m pat = false) blockchain_patterns.

End ErrorHandling.

(** ** shared/constants.ts

    The table [NETWORK]: the contract addresses of the two networks are a
    parameter of the functions that read them. *)

Module Constants.

Record Network : Type := {
  MAINNET_CONTRACT_ADDRESS : string;
  TESTNET_CONTRACT_ADDRESS : string
}.

Definition contract_address (NETWORK : Network) (isTestnet : bool) : string :=
  if isTestnet then TESTNET_CONTRACT_ADDRESS NETWORK else MAINNET_CONTRACT_ADDRESS NETWORK.

(** Test data: the main-net address of the snippet, and a placeholder for
    the test net. *)
Definition test_network : Network :=
  {| MAINNET_CONTRACT_ADDRESS := "0xA54b0184D12349Cf65281C6F965A74828DDd9E8F";
     TESTNET_CONTRACT_ADDRESS := "0x0000000000000000000000000000000000000001" |}.

End Constants.

(** ** token-info/getTokenInfo.ts *)

Module GetTokenInfo.
Import JS Ethers Constants.

Record TokenPoolInfo : Type := {
  token : string;
  tokenReserve : Z;
  virtualTokenReserve : Z;
  ethReserve : Z;
  virtualEthReserve : Z;
  lastPrice : Z;
  lastMcapInEth : Z;
  lastTimestamp : Z;
  lastBlock : Z;
  creator : string;
  liquidityManager : string;
  poolId : string;
  curveConstant : Z
}.

Record TokenMetadata : Type := {
  name : string;
  symbol : string;
  description : string;
  extended : string;
  imageUrl : string
}.

(** The decoded arguments of a [TokenCreated] event, as far as read. *)
Record TokenCreatedArgs : Type := {
  arg_name : string;
  arg_symbol : string;
  arg_description : string;
  arg_extended : string;
  arg_tokenUrlImage : string
}.

(** An entry of [queryFilter]'s result: block, the indexed token address
    the filter selects on, and the arguments when the log was decoded. *)
Record EventLog : Type := {
  ev_blockNumber : Z;
  ev_token : string;
  ev_args : option TokenCreatedArgs
}.

(** One [queryFilter(filter, fromBlock, toBlock)] call; no [toBlock] means
    up to the latest block. *)
Record Query : Type := {
  q_token : string;
  q_fromBlock : Z;
  q_toBlock : option Z
}.

(** The chain-query capability: the provider's block number, and the event
    query of the contract at a given address. *)
Record Chain : Type := {
  getBlockNumber : Result Exception Z;
  queryFilter : string -> Query -> Result Exception (list EventLog)
}.

(** The outcome together with the event queries issued, in order. *)
Definition Scan (A : Type) : Type := (list Query * Result Exception A)%type.

Definition getTokenMetadata (chain : Chain) (NETWORK : Network)
    (tokenAddress : string) (isTestnet : bool) : Scan TokenMetadata :=
  let mainContractAddress := contract_address NETWORK isTestnet in
  match getBlockNumber chain with
  | Err e => ([], Err e)
  | Ok currentBlock =>
      let fromBlock := Z.max 0 (currentBlock - 10000) in
      let q := {| q_token := tokenAddress; q_fromBlock := fromBlock; q_toBlock := None |} in
      ([q],
       events ← queryFilter chain mainContractAddress q;
       if Nat.eqb (length events) 0
       then Err (Error ("No creation event found for token: " +:+ tokenAddress))
       else
         match events !! (length events - 1)%nat with
         | None => Err (TypeError "Cannot read properties of undefined (reading 'args')")
         | Some creationEvent =>
             match ev_args creationEvent with
             | None =>
                 Err (Error ("Creation event for token " +:+ tokenAddress +:+ " has no arguments"))
             | Some args =>
                 Ok {| name := arg_name args;
                       symbol := arg_symbol args;
                       description := arg_description args;
                       extended := arg_extended args;
                       imageUrl := arg_tokenUrlImage args |}
             end
         end)
  end.

(** [(Number(virtualEthReserve) / Number(virtualTokenReserve)) * 10**18],
    floored, converted to [bigint] and formatted. *)
Definition calculateCurrentPrice (poolInfo : TokenPoolInfo) : Result Exception string :=
  let price :=
    SFmul SFprec SFemax
      (SFdiv SFprec SFemax
         (Number_of_bigint (virtualEthReserve poolInfo))
         (Number_of_bigint (virtualTokenReserve poolInfo)))
      (Number_of_bigint (10 ^ 18)) in
  wei ← BigInt_of_number (Math_floor price);
  formatEther wei.

(** *** A fake backend for the event queries *)

(** Last block a query covers when the chain head is [latest]. *)
Definition query_to (latest : Z) (q : Query) : Z := default latest (q_toBlock q).

(** Number of blocks a query spans. *)
Definition query_span (latest : Z) (q : Query) : Z := query_to latest q - q_fromBlock q + 1.

Definition in_range (tokenAddress : string) (a b : Z) (e : EventLog) : bool :=
  String.eqb (ev_token e) tokenAddress && (a <=? ev_blockNumber e) && (ev_blockNumber e <=? b).

(** What one unchunked query over [a..b] returns on a chain whose
    [TokenCreated] logs are [logs], oldest first. *)
Definition unchunked (logs : list EventLog) (tokenAddress : string) (a b : Z) : list EventLog :=
  List.filter (in_range tokenAddress a b) logs.

(** The backend: head at [latest], logs [logs], and, when [limit] is
    given, the refusal of any query over more than [limit] blocks, in the
    words of the Ronin RPC node. *)
Definition fake_chain (limit : option Z) (latest : Z) (logs : list EventLog) : Chain :=
  {| getBlockNumber := Ok latest;
     queryFilter := fun _ q =>
       match limit with
       | Some maxBlockRange =>
           if maxBlockRange <? query_span latest q
           then Err (Error "invalid param: invalid getLogs request, cannot get more than 500 blocks")
           else Ok (unchunked logs (q_token q) (q_fromBlock q) (query_to latest q))
       | None => Ok (unchunked logs (q_token q) (q_fromBlock q) (query_to latest q))
       end |}.




(** Test data: the creation event of token [tokenAddress] named [nm],
    mined at [block]. *)
Definition creation_event (block : Z) (tokenAddress nm : string) : EventLog :=
  {| ev_blockNumber := block;
     ev_token := tokenAddress;
     ev_args := Some {| arg_name := nm; arg_symbol := "MINU"; arg_description := "";
                        arg_extended := "{}"; arg_tokenUrlImage := "ipfs://image" |} |}.

(** Test data: a log of token [tokenAddress] that could not be decoded. *)
Definition undecoded_event (block : Z) (tokenAddress : string) : EventLog :=
  {| ev_blockNumber := block; ev_token := tokenAddress; ev_args := None |}.

(** Events in ascending block order. *)
Definition ascending (l : list EventLog) : Prop :=
  forall (i j : nat) (x y : EventLog),
    l !! i = Some x -> l !! j = Some y -> (i <= j)%nat -> ev_blockNumber x <= ev_blockNumber y.

End GetTokenInfo.

(** ** token-info/proposed-updates.md: [getTokenMetadata] with [fromBlock] *)

Module ProposedUpdates.
Import JS Constants GetTokenInfo.

(** Blocks per event query the RPC node accepts, which the proposal is
    written for. *)
Definition maxBlockRange : Z := 500.

Definition getTokenMetadata (chain : Chain) (NETWORK : Network)
    (tokenAddress : string) (isTestnet : bool) (fromBlock : option Z) : Scan TokenMetadata :=
  let mainContractAddress := contract_address NETWORK isTestnet in
  match getBlockNumber chain with
  | Err e => ([], Err e)
  | Ok currentBlock =>
      let fromBlock :=
        match fromBlock with
        | None => Z.max 0 (currentBlock - 499)
        | Some b => b
        end in
      let toBlock := Z.min currentBlock (fromBlock + 499) in
      let q := {| q_token := tokenAddress; q_fromBlock := fromBlock; q_toBlock := Some toBlock |} in
      ([q],
       events ← queryFilter chain mainContractAddress q;
       if Nat.eqb (length events) 0
       then
         if 0 <? fromBlock
         then Err (Error ("No creation event found for token " +:+ tokenAddress +:+
                " in the specified block range. Consider using an earlier fromBlock value or implementing pagination for larger ranges."))
         else Err (Error ("No creation event found for token: " +:+ tokenAddress))
       else
         match events !! (length events - 1)%nat with
         | None => Err (TypeError "Cannot read properties of undefined (reading 'args')")
         | Some creationEvent =>
             match ev_args creationEvent with
             | None =>
                 Err (Error ("Creation event for token " +:+ tokenAddress +:+ " has no arguments"))
             | Some args =>
                 Ok {| name := arg_name args;
                       symbol := arg_symbol args;
                       description := arg_description args;
                       extended := arg_extended args;
                       imageUrl := arg_tokenUrlImage args |}
             end
         end)
  end.

End ProposedUpdates.

(** ** token-creation/createToken.ts *)

Module CreateToken.
Import JS Ethers Constants.

Record TokenInfo : Type := {
  name : string;
  symbol : string;
  initAmountIn : string;
  description : string;
  extended : string;
  tokenUrlImage : string
}.

Record Log : Type := {
  address : string;
  topics : list string
}.

Record TransactionReceipt : Type := {
  logs : list Log
}.

(** The pending transaction [createNewToken] resolves to: its hash, and
    what awaiting [wait()] gives: the receipt, [null], or an exception
    when the transaction failed. *)
Record TransactionResponse : Type := {
  hash : string;
  wait : Result Exception (option TransactionReceipt)
}.

(** The arguments of one [createNewToken] call, the overrides' [value]
    last. *)
Record CallArgs : Type := {
  call_name : string;
  call_symbol : string;
  call_initAmountIn : string;
  call_description : string;
  call_extended : string;
  call_tokenUrlImage : string;
  call_referral : string;
  call_value : string
}.

(** The contract instance bound to the signer. *)
Record MainContract : Type := {
  creationFee_ : Result Exception Z;
  createNewToken : CallArgs -> Result Exception TransactionResponse
}.

(** [{ txHash, tokenAddress }]; [tokenAddress = None] is [undefined]. *)
Record LaunchResult : Type := {
  txHash : string;
  tokenAddress : option string
}.

(** What the variable [txReceipt] can hold: a receipt, [null], or, when
    [wait()] was not awaited, the promise itself. *)
Inductive ReceiptValue : Type :=
| Receipt (r : TransactionReceipt)
| NullReceipt
| PendingPromise (outcome : Result Exception (option TransactionReceipt)).

(** [txReceipt && txReceipt.logs]: a promise is truthy but has no [logs]
    property. *)
Definition receipt_logs (txReceipt : ReceiptValue) : option (list Log) :=
  match txReceipt with
  | Receipt r => Some (logs r)
  | NullReceipt => None
  | PendingPromise _ => None
  end.

(** [log.topics && log.topics[1] === ethers.ZeroHash] *)
Definition is_creation_log (log : Log) : bool :=
  bool_decide (topics log !! 1%nat = Some ZeroHash).

(** The [for ... of] loop with its [break]. *)
Fixpoint scan_logs (ls : list Log) : option string :=
  match ls with
  | [] => None
  | log :: rest => if is_creation_log log then Some (address log) else scan_logs rest
  end.

(** Step 8 *)
Definition extract_token_address (txReceipt : ReceiptValue) : option string :=
  match receipt_logs txReceipt with
  | Some ls => scan_logs ls
  | None => None
  end.

(** The call of step 6 for a given total value. *)
Definition call_args (tokenInfo : TokenInfo) (totalValue : Z) : CallArgs :=
  {| call_name := name tokenInfo;
     call_symbol := symbol tokenInfo;
     call_initAmountIn := initAmountIn tokenInfo;
     call_description := description tokenInfo;
     call_extended := extended tokenInfo;
     call_tokenUrlImage := tokenUrlImage tokenInfo;
     call_referral := "0x";
     call_value := bigint_toString totalValue |}.

(** Steps 7 to 9: await the receipt, extract the address, return. *)
Definition await_and_extract (tx : TransactionResponse) : Result Exception LaunchResult :=
  r ← wait tx;
  let txReceipt := match r with Some receipt => Receipt receipt | None => NullReceipt end in
  Ok {| txHash := hash tx; tokenAddress := extract_token_address txReceipt |}.

(** [contracts] gives the contract instance at an address.  The two
    [console.log] lines of steps 2 and 4 format the fee and the total
    with [ethers.formatEther], which throws on a value that does not fit
    512 bits; what is printed is not modelled.  The [catch] of the source
    rethrows what it caught, so that an exception of steps 6 and 7 leaves
    the function unchanged. *)
Definition createTokenOnContract (contracts : string -> MainContract) (NETWORK : Network)
    (tokenInfo : TokenInfo) (isTestnet : bool) : Result Exception LaunchResult :=
  let mainContract := contracts (contract_address NETWORK isTestnet) in
  creationFee ← creationFee_ mainContract;
  _ ← formatEther creationFee;
  valueAmount ← parseEther (initAmountIn tokenInfo);
  let totalValue := creationFee + valueAmount in
  _ ← formatEther totalValue;
  tx ← createNewToken mainContract (call_args tokenInfo totalValue);
  await_and_extract tx.

(** A contract for tests: fee [fee], and a transaction whose hash tells
    the value it was sent with and whose receipt holds the logs [ls]. *)
Definition fake_contract (fee : Z) (ls : list Log) : MainContract :=
  {| creationFee_ := Ok fee;
     createNewToken := fun args =>
       Ok {| hash := "0xhash:" +:+ call_value args;
             wait := Ok (Some {| logs := ls |}) |} |}.

(** Test data: a launch buying in for [amount] RON. *)
Definition test_token (amount : string) : TokenInfo :=
  {| name := "Mochi Inu"; symbol := "MINU"; initAmountIn := amount;
     description := "a memecoin"; extended := "{}"; tokenUrlImage := "ipfs://image" |}.

(** Test data: a receipt's three logs, the second one marked by the zero
    hash as its second topic. *)
Definition test_logs : list Log :=
  [ {| address := "0xBBB"; topics := ["0xddf252ad"; "0x0000000000000000000000000000000000000000000000000000000000000b0b"] |};
    {| address := "0xAAA"; topics := ["0x8be0079c"; ZeroHash] |};
    {| address := "0xCCC"; topics := ["0x8be0079c"] |} ].

End CreateToken.

(** ** code snippets/createToken.ts *)

Module CreateTokenSnippet.
Import JS Ethers CreateToken.

Definition mainContractAddress : string := "0xA54b0184D12349Cf65281C6F965A74828DDd9E8F".

(** [const txReceipt = tx.wait()] is not awaited here: [txReceipt] is the
    promise, whatever it will resolve to. *)
Definition createTokenOnContract (contracts : string -> MainContract)
    (tokenInfo : TokenInfo) : Result Exception LaunchResult :=
  let mainContract := contracts mainContractAddress in
  creationFee ← creationFee_ mainContract;
  valueAmount ← parseEther (initAmountIn tokenInfo);
  let totalValue := creationFee + valueAmount in
  tx ← createNewToken mainContract (call_args tokenInfo totalValue);
  let txReceipt := PendingPromise (wait tx) in
  Ok {| txHash := hash tx; tokenAddress := extract_token_address txReceipt |}.

End CreateTokenSnippet.

(** ** shared/constants.ts, the values *)

Module SharedConstants.
Import Constants.

(** [NETWORK], as far as the contract addresses go. *)
Definition NETWORK : Network :=
  {| MAINNET_CONTRACT_ADDRESS := "0xA54b0184D12349Cf65281C6F965A74828DDd9E8F";
     TESTNET_CONTRACT_ADDRESS := "0xfbdb66ce17543b425962be05d4d44d6f0b7f1b94" |}.

(** [TOKEN_CREATION.MAX_IMAGE_SIZE] *)
Definition MAX_IMAGE_SIZE : Z := 1024 * 1024.

End SharedConstants.

(** ** token-info/getTokenInfo.ts: the pool read and the combined read *)

Module TokenInfoReads.
Import JS Ethers Constants GetTokenInfo.

(** [mainContract.pools_(tokenAddress)] of the contract at an address. *)
Definition PoolReader : Type := string -> string -> Result Exception TokenPoolInfo.

Definition getTokenPoolInfo (pools_ : PoolReader) (NETWORK : Network)
    (tokenAddress : string) (isTestnet : bool) : Result Exception TokenPoolInfo :=
  let mainContractAddress := contract_address NETWORK isTestnet in
  poolInfo ← pools_ mainContractAddress tokenAddress;
  Ok {| token := token poolInfo;
        tokenReserve := tokenReserve poolInfo;
        virtualTokenReserve := virtualTokenReserve poolInfo;
        ethReserve := ethReserve poolInfo;
        virtualEthReserve := virtualEthReserve poolInfo;
        lastPrice := lastPrice poolInfo;
        lastMcapInEth := lastMcapInEth poolInfo;
        lastTimestamp := lastTimestamp poolInfo;
        lastBlock := lastBlock poolInfo;
        creator := creator poolInfo;
        liquidityManager := liquidityManager poolInfo;
        poolId := poolId poolInfo;
        curveConstant := curveConstant poolInfo |}.

Record CompleteTokenInfo : Type := {
  poolInfo : TokenPoolInfo;
  metadata : TokenMetadata;
  formattedPrice : string;
  formattedMarketCap : string
}.

(** What follows the two reads. *)
Definition format_info (poolInfo : TokenPoolInfo) (metadata : TokenMetadata)
    : Result Exception CompleteTokenInfo :=
  formattedPrice ← formatEther (lastPrice poolInfo);
  formattedMarketCap ← formatEther (lastMcapInEth poolInfo);
  Ok {| poolInfo := poolInfo; metadata := metadata;
        formattedPrice := formattedPrice; formattedMarketCap := formattedMarketCap |}.

(** The [catch] of the source logs and rethrows. *)
Definition getCompleteTokenInfo (chain : Chain) (pools_ : PoolReader) (NETWORK : Network)
    (tokenAddress : string) (isTestnet : bool) : Scan CompleteTokenInfo :=
  match getTokenPoolInfo pools_ NETWORK tokenAddress isTestnet with
  | Err e => ([], Err e)
  | Ok poolInfo =>
      let '(issued, outcome) := getTokenMetadata chain NETWORK tokenAddress isTestnet in
      (issued, metadata ← outcome; format_info poolInfo metadata)
  end.

(** proposed-updates.md: the same with [fromBlock] passed through. *)
Definition getCompleteTokenInfo_proposed (chain : Chain) (pools_ : PoolReader)
    (NETWORK : Network) (tokenAddress : string) (isTestnet : bool) (fromBlock : option Z)
    : Scan CompleteTokenInfo :=
  match getTokenPoolInfo pools_ NETWORK tokenAddress isTestnet with
  | Err e => ([], Err e)
  | Ok poolInfo =>
      let '(issued, outcome) :=
        ProposedUpdates.getTokenMetadata chain NETWORK tokenAddress isTestnet fromBlock in
      (issued, metadata ← outcome; format_info poolInfo metadata)
  end.

(** test-token-info-optimized.ts: the creation block is looked up first;
    [patchedGetTokenMetadata] then calls the original [getTokenMetadata]
    with its three arguments.  [None] when the locator ran out of [fuel]. *)
Definition getCompleteTokenInfoOptimized (fuel : nat) (provider : CreationBlock.Provider)
    (chain : Chain) (pools_ : PoolReader) (NETWORK : Network)
    (tokenAddress : string) (isTestnet : bool) : option (Scan CompleteTokenInfo) :=
  match CreationBlock.findTokenCreationBlock fuel provider tokenAddress with
  | None => None
  | Some (Err e) => Some ([], Err e)
  | Some (Ok creationBlock) =>
      match getTokenPoolInfo pools_ NETWORK tokenAddress isTestnet with
      | Err e => Some ([], Err e)
      | Ok poolInfo =>
          let patchedGetTokenMetadata :=
            fun (tokenAddress : string) (isTestnet : bool) =>
              getTokenMetadata chain NETWORK tokenAddress isTestnet in
          let '(issued, outcome) := patchedGetTokenMetadata tokenAddress isTestnet in
          Some (issued, metadata ← outcome; format_info poolInfo metadata)
      end
  end.

(** Test data: a pool whose price fields are [price] and [mcap]. *)
Definition test_pool (price mcap : Z) : TokenPoolInfo :=
  {| token := "0xT"; tokenReserve := 7 * 10 ^ 26; virtualTokenReserve := 10 ^ 27;
     ethReserve := 5 * 10 ^ 18; virtualEthReserve := 15 * 10 ^ 18;
     lastPrice := price; lastMcapInEth := mcap; lastTimestamp := 1700000000;
     lastBlock := 19990; creator := "0xc"; liquidityManager := "0x0"; poolId := "0x0";
     curveConstant := 15 * 10 ^ 45 |}.

End TokenInfoReads.

(** ** token-creation/uploadImageToIPFS.ts *)

Module UploadImage.
Import JS ErrorHandling.

(** The part of a [File] the module reads. *)
Record File : Type := {
  file_size : Z;
  file_type : string
}.

(** The parsed body of a successful answer: an object whose [imageUrl],
    when present, is a string. *)
Record UploadData : Type := {
  imageUrl : option string
}.

(** The answer of [fetch]: [text()] and [json()] give the body or reject
    with some raw error. *)
Record Response : Type := {
  ok : bool;
  status : Z;
  statusText : string;
  text : Result JSValue string;
  json : Result JSValue UploadData
}.

(** What the [try] block can throw: an error already classified, or
    anything else. *)
Inductive Caught : Type :=
| CaughtClassified (e : TokenCreationError)
| CaughtRaw (v : JSValue).

(** What the function can throw: a [TokenCreationError], or the exception
    the classifier itself raised. *)
Inductive Failure : Type :=
| Classified (e : TokenCreationError)
| Unclassified (e : Exception).

Definition lower_ascii (c : ascii) : ascii :=
  let n := N_of_ascii c in
  if ((65 <=? n) && (n <=? 90))%N then ascii_of_N (n + 32) else c.

(** [toLowerCase] on the letters A to Z; other characters are left as
    they are. *)
Fixpoint toLowerCase (s : string) : string :=
  match s with
  | EmptyString => EmptyString
  | String c s' => String (lower_ascii c) (toLowerCase s')
  end.

(** [(size / 1024 / 1024).toFixed(2)] for a size between 0 and 2^53: the
    two divisions are exact, and [toFixed] rounds the hundredths half
    up. *)
Definition megabytes_toFixed2 (size : Z) : string :=
  let hundredths := (size * 200 + 2 ^ 20) `div` 2 ^ 21 in
  let cents := hundredths `mod` 100 in
  bigint_toString (hundredths `div` 100) +:+ "." +:+
  (if cents <? 10 then "0" else "") +:+ bigint_toString cents.

Definition validateImageFile (MAX_IMAGE_SIZE : Z) (imageFile : option File)
    : Result TokenCreationError unit :=
  match imageFile with
  | None =>
      Err {| type := UPLOAD_FAILED; message := "No image file provided";
             originalError := JSNull |}
  | Some file =>
      if MAX_IMAGE_SIZE <? file_size file then
        Err {| type := UPLOAD_FAILED;
               message := "Image file is too large (" +:+ megabytes_toFixed2 (file_size file) +:+
                          "MB). Maximum allowed size is 1MB.";
               originalError := JSNull |}
      else
        let fileType := toLowerCase (file_type file) in
        if negb (String.prefix "image/" fileType) then
          Err {| type := UPLOAD_FAILED;
                 message := "Invalid file type: " +:+ fileType +:+ ". Please upload an image file.";
                 originalError := JSNull |}
        else Ok ()
  end.

(** The response and the body as the values kept in [originalError]. *)
Definition response_value (r : Response) : JSValue :=
  JSObj {[ "ok" := JSBool (ok r); "status" := JSNum (status r);
           "statusText" := JSStr (statusText r) ]}.

Definition data_value (d : UploadData) : JSValue :=
  match imageUrl d with
  | Some url => JSObj {[ "imageUrl" := JSStr url ]}
  | None => JSObj ∅
  end.

(** The [try] block.  [fetch] is the POST of the form data to
    [API.IPFS_UPLOAD]. *)
Definition try_upload (MAX_IMAGE_SIZE : Z) (fetch : option File -> Result JSValue Response)
    (imageFile : option File) : Result Caught string :=
  match validateImageFile MAX_IMAGE_SIZE imageFile with
  | Err e => Err (CaughtClassified e)
  | Ok _ =>
      match fetch imageFile with
      | Err raw => Err (CaughtRaw raw)
      | Ok response =>
          if negb (ok response) then
            let errorText := match text response with
                             | Ok t => t
                             | Err _ => "Unknown error"
                             end in
            Err (CaughtClassified
                   {| type := UPLOAD_FAILED;
                      message := "Upload failed: " +:+ bigint_toString (status response) +:+ " " +:+
                                 statusText response +:+ ". " +:+ errorText;
                      originalError := response_value response |})
          else
            match json response with
            | Err raw => Err (CaughtRaw raw)
            | Ok data =>
                match imageUrl data with
                | Some url =>
                    if String.eqb url ""
                    then Err (CaughtClassified
                                {| type := UPLOAD_FAILED;
                                   message := "Upload succeeded but no image URL was returned";
                                   originalError := data_value data |})
                    else Ok url
                | None =>
                    Err (CaughtClassified
                           {| type := UPLOAD_FAILED;
                              message := "Upload succeeded but no image URL was returned";
                              originalError := data_value data |})
                end
            end
      end
  end.

(** The [catch]: a [TokenCreationError] is rethrown, anything else goes
    through [parseUploadError]. *)
Definition uploadImageToIPFS (MAX_IMAGE_SIZE : Z) (fetch : option File -> Result JSValue Response)
    (imageFile : option File) : Result Failure string :=
  match try_upload MAX_IMAGE_SIZE fetch imageFile with
  | Ok url => Ok url
  | Err (CaughtClassified e) => Err (Classified e)
  | Err (CaughtRaw error) =>
      match parseUploadError error with
      | Ok e => Err (Classified e)
      | Err exn => Err (Unclassified exn)
      end
  end.

(** Test data: an answer with the given status and error text. *)
Definition refusal (st : Z) (reason body : string) : Response :=
  {| ok := false; status := st; statusText := reason; text := Ok body;
     json := Err (JSObj {[ "message" := JSStr "Unexpected token" ]}) |}.

(** Test data: a successful answer holding [url]. *)
Definition accepted (url : option string) : Response :=
  {| ok := true; status := 200; statusText := "OK"; text := Ok "";
     json := Ok {| imageUrl := url |} |}.

End UploadImage.

(** ** token-creation/createTokenWithImage.ts *)

Module CreateTokenWithImage.
Import JS ErrorHandling Constants CreateToken UploadImage.

(** [Omit<TokenInfo, 'tokenUrlImage'>] *)
Record TokenCreationParams : Type := {
  p_name : string;
  p_symbol : string;
  p_initAmountIn : string;
  p_description : string;
  p_extended : string
}.

Record TokenCreationResult : Type := {
  r_tokenAddress : string;
  r_txHash : string;
  r_imageUrl : string
}.

(** A thrown exception as the value the [catch] clause receives.  An
    instance of [TokenCreationError] is not among these values: it is the
    [Classified] branch of [Failure]. *)
Definition exception_value (e : Exception) : JSValue :=
  match e with
  | Error m => JSObj {[ "name" := JSStr "Error"; "message" := JSStr m ]}
  | TypeError m => JSObj {[ "name" := JSStr "TypeError"; "message" := JSStr m ]}
  | RangeError m => JSObj {[ "name" := JSStr "RangeError"; "message" := JSStr m ]}
  | Thrown v => v
  end.

(** [{ ...tokenDetails, tokenUrlImage: imageUrl }] *)
Definition with_image (tokenDetails : TokenCreationParams) (imageUrl : string) : TokenInfo :=
  {| name := p_name tokenDetails;
     symbol := p_symbol tokenDetails;
     initAmountIn := p_initAmountIn tokenDetails;
     description := p_description tokenDetails;
     extended := p_extended tokenDetails;
     tokenUrlImage := imageUrl |}.

(** The [try] block; an exception that is not a [TokenCreationError] is
    [Unclassified]. *)
Definition try_create (MAX_IMAGE_SIZE : Z) (fetch : option File -> Result JSValue Response)
    (contracts : string -> MainContract) (NETWORK : Network) (imageFile : option File)
    (tokenDetails : TokenCreationParams) (isTestnet : bool)
    : Result Failure TokenCreationResult :=
  match uploadImageToIPFS MAX_IMAGE_SIZE fetch imageFile with
  | Err thrown => Err thrown
  | Ok imageUrl =>
      let tokenInfo := with_image tokenDetails imageUrl in
      match createTokenOnContract contracts NETWORK tokenInfo isTestnet with
      | Err exn => Err (Unclassified exn)
      | Ok result =>
          match tokenAddress result with
          | Some addr =>
              if String.eqb addr ""
              then Err (Unclassified (Error "Token creation failed: No token address returned"))
              else Ok {| r_tokenAddress := addr; r_txHash := txHash result;
                         r_imageUrl := imageUrl |}
          | None =>
              Err (Unclassified (Error "Token creation failed: No token address returned"))
          end
      end
  end.

(** The [catch]: a [TokenCreationError] is rethrown, anything else goes
    through [parseBlockchainError]. *)
Definition createTokenWithImage (MAX_IMAGE_SIZE : Z)
    (fetch : option File -> Result JSValue Response)
    (contracts : string -> MainContract) (NETWORK : Network) (imageFile : option File)
    (tokenDetails : TokenCreationParams) (isTestnet : bool)
    : Result Failure TokenCreationResult :=
  match try_create MAX_IMAGE_SIZE fetch contracts NETWORK imageFile tokenDetails isTestnet with
  | Ok result => Ok result
  | Err (Classified e) => Err (Classified e)
  | Err (Unclassified exn) =>
      match parseBlockchainError (exception_value exn) with
      | Ok e => Err (Classified e)
      | Err exn' => Err (Unclassified exn')
      end
  end.

(** Test data: the launch of the README. *)
Definition test_details : TokenCreationParams :=
  {| p_name := "Rakun Inu"; p_symbol := "TANUKI"; p_initAmountIn := "0.1";
     p_description := "This is my awesome memecoin!"; p_extended := "{}" |}.

Definition test_image : option File :=
  Some {| file_size := 204800; file_type := "image/png" |}.

End CreateTokenWithImage.

(** ** Backends for the creation-block locator *)

Module LocatorBackends.
Import JS CreationBlock.

(** An endpoint that answers truthfully for a contract with code where
    [hasCode] says, but whose every third block-tagged probe times out. *)
Definition unreliable_provider (hasCode : Z -> bool) (latestBlock : Z) : Provider :=
  {| getCode := fun calls _ tag =>
       match tag with
       | None => Ok (if hasCode latestBlock then "0x6080604052" else "0x")
       | Some b =>
           match Nat.modulo calls 3 with
           | O => Err (Error "timeout")
           | _ => Ok (if hasCode b then "0x6080604052" else "0x")
           end
       end;
     getBlockNumber := Ok latestBlock |}.

(** A node that keeps no historical state: the code at the latest block
    is served, every probe at a block number fails. *)
Definition stateless_provider (latestBlock : Z) : Provider :=
  {| getCode := fun _ _ tag =>
       match tag with
       | None => Ok "0x6080604052"
       | Some _ => Err (Error "missing trie node")
       end;
     getBlockNumber := Ok latestBlock |}.

End LocatorBackends.

(** ** Backends for the launch *)

Module LaunchBackends.
Import JS CreateToken.

(** A contract whose transaction is sent but fails while it is mined. *)
Definition reverting_contract (fee : Z) : MainContract :=
  {| creationFee_ := Ok fee;
     createNewToken := fun args =>
       Ok {| hash := "0xhash:" +:+ call_value args;
             wait := Err (Error "transaction execution reverted") |} |}.


End LaunchBackends.

(* ================================================================= *)
(** * Properties *)

(** ** Strings *)

Section StringFacts.

Lemma append_cons (c : ascii) (s t : string) : String c s +:+ t = String c (s +:+ t).
Proof. reflexivity. Qed.

Lemma append_nil (t : string) : EmptyString +:+ t = t.
Proof. reflexivity. Qed.

Lemma append_nil_r (s : string) : s +:+ EmptyString = s.
Proof. induction s as [| c s IH]; [reflexivity | rewrite append_cons; congruence]. Qed.

Lemma length_append (a b : string) :
  String.length (a +:+ b) = (String.length a + String.length b)%nat.
Proof. induction a as [| c a IH]; [reflexivity |]. rewrite append_cons. cbn. now rewrite IH. Qed.

Lemma substring_whole (s : string) : String.substring 0 (String.length s) s = s.
Proof. induction s as [| c s IH]; cbn; [reflexivity | now rewrite IH]. Qed.

Lemma substring_tail_empty (s : string) : String.substring (String.length s) 0 s = EmptyString.
Proof. induction s as [| c s IH]; cbn; [reflexivity | exact IH]. Qed.

End StringFacts.

(** ** Doubles that hold integers *)

Section DoubleFacts.
Import JS.

Lemma ulp_pos (a : Z) : 0 < ulp a.
Proof. unfold ulp. apply Z.pow_pos_nonneg; lia. Qed.

Lemma ulp_small (a : Z) : a < 2 ^ 53 -> ulp a = 1.
Proof.
  intros H. unfold ulp.
  destruct (Z_le_gt_dec a 0) as [Hle | Hgt].
  - rewrite Z.log2_nonpos by lia. reflexivity.
  - assert (Z.log2 a < 53) by (apply Z.log2_lt_pow2; lia).
    rewrite Z.max_l by lia. reflexivity.
Qed.

(** From 2^53 to 2^54 the doubles are the even integers. *)
Lemma ulp_binade53 (a : Z) : 2 ^ 53 <= a < 2 ^ 54 -> ulp a = 2.
Proof.
  intros H. unfold ulp. rewrite (Z.log2_unique a 53); [reflexivity | lia |].
  change (Z.succ 53) with 54. exact H.
Qed.

Lemma ulp_mono (a b : Z) : a <= b -> exists k, 0 < k /\ ulp b = k * ulp a.
Proof.
  intros H. unfold ulp.
  pose proof (Z.log2_le_mono a b H) as Hl.
  exists (2 ^ (Z.max 0 (Z.log2 b - 52) - Z.max 0 (Z.log2 a - 52))).
  split; [apply Z.pow_pos_nonneg; lia |].
  rewrite <- Z.pow_add_r by lia. f_equal. lia.
Qed.

(** Rounding gives one of the two multiples of the ulp around [a], the
    nearer one. *)
Lemma round_nonneg_cases (a : Z) :
  let u := ulp a in
  let q := a `div` u in
  let r := a `mod` u in
  (round_nonneg a = q * u /\ 2 * r <= u) \/
  (round_nonneg a = (q + 1) * u /\ u <= 2 * r).
Proof.
  intros u q r. unfold round_nonneg. fold u q r.
  destruct (Z.ltb_spec (2 * r) u); [left; lia |].
  destruct (Z.ltb_spec u (2 * r)); [right; lia |].
  destruct (Z.even q); [left | right]; lia.
Qed.

(** Integers below 2^53 are doubles. *)
Lemma round_nonneg_small (a : Z) : a < 2 ^ 53 -> round_nonneg a = a.
Proof.
  intros H. unfold round_nonneg. rewrite (ulp_small a H).
  rewrite Z.mod_1_r, Z.div_1_r. change (2 * 0 <? 1) with true. cbv iota. lia.
Qed.

Lemma to_double_safe (z : Z) : - 2 ^ 53 <= z <= 2 ^ 53 -> to_double z = z.
Proof.
  intros H. unfold to_double. destruct (Z.ltb_spec z 0).
  - destruct (Z.eq_dec z (- 2 ^ 53)) as [-> | Hne]; [reflexivity |].
    rewrite round_nonneg_small; lia.
  - destruct (Z.eq_dec z (2 ^ 53)) as [-> | Hne]; [reflexivity |].
    rewrite round_nonneg_small; lia.
Qed.

Lemma to_double_nonneg (z : Z) : 0 <= z -> to_double z = round_nonneg z.
Proof. intros H. unfold to_double. destruct (Z.ltb_spec z 0); [lia | reflexivity]. Qed.

Lemma round_nonneg_ge_multiple (a y k : Z) :
  y = k * ulp a -> y <= a -> y <= round_nonneg a.
Proof.
  intros -> Hle. pose proof (ulp_pos a) as Hu.
  pose proof (Z.div_mod a (ulp a) ltac:(lia)) as Hd.
  pose proof (Z.mod_pos_bound a (ulp a) Hu) as Hm.
  assert (k <= a `div` ulp a) by nia.
  destruct (round_nonneg_cases a) as [[-> _] | [-> _]]; nia.
Qed.

Lemma round_nonneg_le_multiple (a y k : Z) :
  y = k * ulp a -> a <= y -> round_nonneg a <= y.
Proof.
  intros -> Hle. pose proof (ulp_pos a) as Hu.
  pose proof (Z.div_mod a (ulp a) ltac:(lia)) as Hd.
  pose proof (Z.mod_pos_bound a (ulp a) Hu) as Hm.
  destruct (round_nonneg_cases a) as [[-> _] | [-> Hr]]; [nia |].
  assert (a `div` ulp a < k) by nia. nia.
Qed.

Lemma round_nonneg_nonneg (a : Z) : 0 <= a -> 0 <= round_nonneg a.
Proof. intros H. apply (round_nonneg_ge_multiple a 0 0); lia. Qed.

(** [a / ulp a] has 53 bits at most. *)
Lemma significand_bound (a : Z) : 0 <= a -> a `div` ulp a < 2 ^ 53.
Proof.
  intros H. destruct (Z_lt_le_dec a (2 ^ 53)) as [Hs | Hb].
  - rewrite (ulp_small a Hs), Z.div_1_r. exact Hs.
  - assert (Ha : 0 < a) by lia.
    destruct (Z.log2_spec a Ha) as [Hlo Hhi].
    assert (53 <= Z.log2 a) by (apply Z.log2_le_pow2; lia).
    unfold ulp. rewrite Z.max_r by lia.
    apply Z.div_lt_upper_bound; [apply Z.pow_pos_nonneg; lia |].
    rewrite <- Z.pow_add_r by lia.
    replace (Z.log2 a - 52 + 53) with (Z.succ (Z.log2 a)) by lia. exact Hhi.
Qed.

Lemma representable_mul_pow2 (m e : Z) :
  0 <= m <= 2 ^ 53 -> 0 <= e -> representable (m * 2 ^ e).
Proof.
  intros Hm He. unfold representable.
  destruct (Z.eq_dec m 0) as [-> | Hm0]; [now rewrite Z.mul_0_l, Zmod_0_l |].
  assert (Hlog : Z.log2 (m * 2 ^ e) = e + Z.log2 m) by (apply Z.log2_mul_pow2; lia).
  unfold ulp. rewrite Hlog.
  destruct (Z.eq_dec m (2 ^ 53)) as [-> | Hne].
  - rewrite Z.log2_pow2 by lia. rewrite Z.max_r by lia.
    rewrite <- Z.pow_add_r by lia.
    replace (53 + e) with (52 + (e + 53 - 52)) by lia.
    rewrite Z.pow_add_r by lia. apply Z_mod_mult.
  - assert (Z.log2 m < 53) by (apply Z.log2_lt_pow2; lia).
    pose proof (Z.log2_nonneg m).
    set (x := Z.max 0 (e + Z.log2 m - 52)).
    replace e with ((e - x) + x) at 1 by lia.
    rewrite Z.pow_add_r by lia. rewrite Z.mul_assoc. apply Z_mod_mult.
Qed.

Lemma representable_inv (a : Z) :
  0 <= a -> representable a ->
  exists m e, 0 <= m <= 2 ^ 53 /\ 0 <= e /\ a = m * 2 ^ e.
Proof.
  intros Ha Hr. exists (a `div` ulp a), (Z.max 0 (Z.log2 a - 52)).
  pose proof (significand_bound a Ha). pose proof (ulp_pos a).
  repeat split; try lia.
  - apply Z.div_pos; lia.
  - fold (ulp a). unfold representable in Hr.
    pose proof (Z.div_mod a (ulp a) ltac:(lia)). lia.
Qed.

Lemma round_nonneg_representable (a : Z) : 0 <= a -> representable (round_nonneg a).
Proof.
  intros Ha. pose proof (significand_bound a Ha) as Hq. pose proof (ulp_pos a) as Hu.
  assert (0 <= a `div` ulp a) by (apply Z.div_pos; lia).
  destruct (round_nonneg_cases a) as [[-> _] | [-> _]];
    unfold ulp at 2; apply representable_mul_pow2; lia.
Qed.

Lemma representable_double (a : Z) : 0 <= a -> representable a -> representable (2 * a).
Proof.
  intros Ha Hr. destruct (representable_inv a Ha Hr) as (m & e & Hm & He & ->).
  replace (2 * (m * 2 ^ e)) with (m * 2 ^ (e + 1)) by (rewrite Z.pow_add_r by lia; lia).
  apply representable_mul_pow2; lia.
Qed.

Lemma representable_half (a : Z) : 0 <= a -> representable a -> representable (a `div` 2).
Proof.
  intros Ha Hr. destruct (representable_inv a Ha Hr) as (m & e & Hm & He & ->).
  destruct (Z.eq_dec e 0) as [-> | Hne].
  - rewrite Z.pow_0_r, Z.mul_1_r.
    replace (m `div` 2) with (m `div` 2 * 2 ^ 0) by (rewrite Z.pow_0_r; lia).
    apply representable_mul_pow2; [| lia].
    split; [apply Z.div_pos; lia |].
    apply Z.div_le_upper_bound; lia.
  - replace (m * 2 ^ e) with (m * 2 ^ (e - 1) * 2)
      by (replace e with ((e - 1) + 1) at 2 by lia; rewrite Z.pow_add_r by lia; lia).
    rewrite Z.div_mul by lia. apply representable_mul_pow2; lia.
Qed.

(** Rounding never passes a double: not one above the number ... *)
Lemma round_nonneg_le_representable (x y : Z) :
  0 <= x <= y -> representable y -> round_nonneg x <= y.
Proof.
  intros Hxy Hr. destruct (ulp_mono x y ltac:(lia)) as (k & Hk & Hu).
  unfold representable in Hr. pose proof (ulp_pos y).
  pose proof (Z.div_mod y (ulp y) ltac:(lia)) as Hd.
  apply (round_nonneg_le_multiple x y (y `div` ulp y * k)); [| lia].
  rewrite Hr in Hd. set (d := y `div` ulp y) in *. rewrite Hu in Hd. nia.
Qed.

Lemma pow2_log2_multiple (x : Z) : 0 < x -> exists k, 2 ^ Z.log2 x = k * ulp x.
Proof.
  intros Hx. pose proof (Z.log2_nonneg x).
  exists (2 ^ (Z.log2 x - Z.max 0 (Z.log2 x - 52))). unfold ulp.
  rewrite <- Z.pow_add_r by lia. f_equal. lia.
Qed.

(** ... nor one below it. *)
Lemma round_nonneg_ge_representable (x y : Z) :
  0 <= y <= x -> representable y -> y <= round_nonneg x.
Proof.
  intros Hxy Hr.
  destruct (Z.eq_dec y 0) as [-> | Hy]; [apply round_nonneg_nonneg; lia |].
  pose proof (Z.log2_le_mono y x ltac:(lia)) as Hl.
  destruct (Z.eq_dec (Z.log2 y) (Z.log2 x)) as [Heq | Hne].
  - unfold representable in Hr. pose proof (ulp_pos y).
    pose proof (Z.div_mod y (ulp y) ltac:(lia)) as Hd.
    apply (round_nonneg_ge_multiple x y (y `div` ulp y)); [| lia].
    replace (ulp x) with (ulp y) by (unfold ulp; now rewrite Heq). lia.
  - destruct (pow2_log2_multiple x ltac:(lia)) as [k Hk].
    destruct (Z.log2_spec y ltac:(lia)) as [_ Hhi].
    destruct (Z.log2_spec x ltac:(lia)) as [Hlo _].
    assert (2 ^ Z.succ (Z.log2 y) <= 2 ^ Z.log2 x) by (apply Z.pow_le_mono_r; lia).
    pose proof (round_nonneg_ge_multiple x (2 ^ Z.log2 x) k Hk Hlo). lia.
Qed.

(** Half the rounded sum of two bounds, the lower one a double, lies
    between them. *)
Lemma mid_lower (low high : Z) :
  0 <= low <= high -> representable low ->
  low <= round_nonneg (low + high) `div` 2.
Proof.
  intros H Hr. apply Z.div_le_lower_bound; [lia |].
  apply round_nonneg_ge_representable; [lia |]. now apply representable_double.
Qed.

Lemma mid_upper (low high : Z) :
  0 <= low <= high -> representable low ->
  round_nonneg (low + high) `div` 2 <= high.
Proof.
  intros H Hr. apply Z.div_le_upper_bound; [lia |].
  set (s := low + high).
  pose proof (ulp_pos s) as Hu.
  pose proof (Z.div_mod s (ulp s) ltac:(lia)) as Hd.
  pose proof (Z.mod_pos_bound s (ulp s) Hu) as Hm.
  destruct (round_nonneg_cases s) as [[-> _] | [-> Hup]]; [unfold s in *; lia |].
  cbv zeta in Hup.
  (* rounded up: the remainder is at most high - low *)
  assert (Hrem : s `mod` ulp s <= high - low).
  { destruct (Z.eq_dec s 0) as [Hs0 | Hs0]; [rewrite Hs0, Zmod_0_l; lia |].
    destruct (Z_lt_le_dec (2 * low) (2 ^ Z.log2 s)) as [Hlt | Hge].
    - destruct (pow2_log2_multiple s ltac:(unfold s; lia)) as [k Hk].
      destruct (Z.log2_spec s ltac:(unfold s; lia)) as [Hlo _].
      assert (k <= s `div` ulp s) by nia.
      assert (2 ^ Z.log2 s <= s - s `mod` ulp s) by nia.
      unfold s in *. lia.
    - assert (Heq : Z.log2 (2 * low) = Z.log2 s).
      { apply Z.le_antisymm.
        - apply Z.log2_le_mono. unfold s. lia.
        - apply Z.log2_le_pow2; [| exact Hge].
          pose proof (Z.pow_pos_nonneg 2 (Z.log2 s) ltac:(lia) (Z.log2_nonneg s)). lia. }
      pose proof (representable_double low ltac:(lia) Hr) as Hr2.
      unfold representable in Hr2.
      replace (ulp (2 * low)) with (ulp s) in Hr2 by (unfold ulp; now rewrite Heq).
      assert (Hs : s = 2 * low + (high - low)) by (unfold s; lia).
      rewrite Hs at 1.
      rewrite Z.add_mod, Hr2, Z.add_0_l, Z.mod_mod by lia.
      apply Z.mod_le; lia. }
  unfold s in *. nia.
Qed.

(** One less than a double is rounded to that double at most. *)
Lemma to_double_pred_le (m : Z) : 0 <= m -> representable m -> to_double (m - 1) <= m.
Proof.
  intros Hm Hr. destruct (Z.eq_dec m 0) as [-> | Hne]; [vm_compute; discriminate |].
  rewrite to_double_nonneg by lia. apply round_nonneg_le_representable; [lia | exact Hr].
Qed.

(** Below 2^54 a sum is off by one at most once rounded, and even from
    2^53 on. *)
Lemma half_rounded_sum (s : Z) :
  0 <= s < 2 ^ 54 ->
  2 * (round_nonneg s `div` 2) - 1 <= s <= 2 * (round_nonneg s `div` 2) + 1.
Proof.
  intros H. destruct (Z_lt_le_dec s (2 ^ 53)) as [Hs | Hb].
  - rewrite round_nonneg_small by exact Hs.
    pose proof (Z.div_mod s 2 ltac:(lia)). pose proof (Z.mod_pos_bound s 2 ltac:(lia)). lia.
  - pose proof (ulp_binade53 s ltac:(lia)) as Hu.
    pose proof (Z.div_mod s 2 ltac:(lia)). pose proof (Z.mod_pos_bound s 2 ltac:(lia)).
    destruct (round_nonneg_cases s) as [[-> Hr] | [-> Hr]]; cbv zeta in Hr;
      rewrite Hu in *; rewrite Z.div_mul by lia; lia.
Qed.

(** The rounding is that of binary64 addition and subtraction: here on
    operands at and beyond 2^53. *)
Lemma number_add_is_binary64_sample :
  Forall (fun ab : Z * Z =>
            BigInt_of_number (SFadd SFprec SFemax (Number_of_bigint ab.1) (Number_of_bigint ab.2))
            = Ok (number_add ab.1 ab.2) /\
            BigInt_of_number (SFsub SFprec SFemax (Number_of_bigint ab.1) (Number_of_bigint ab.2))
            = Ok (number_sub ab.1 ab.2))
    [ (2 ^ 53, 1); (2 ^ 53 - 1, 1); (2 ^ 53 + 2, 1); (2 ^ 53, 2 ^ 53 + 2);
      (2 ^ 53 - 4, 2 ^ 53 - 1); (2 ^ 53 - 1, 2 ^ 53); (2 ^ 54 + 4, 2 ^ 54 + 8);
      (2 ^ 60, 129); (2 ^ 60, 128); (2 ^ 60 + 256, 128); (0, 1); (12345, 54321);
      (2 ^ 54, 3); (2 ^ 54, 2); (2 ^ 54 + 4, 2); (2 ^ 100, 2 ^ 47); (2 ^ 100, 2 ^ 48) ].
Proof. repeat (apply Forall_cons; split; [vm_compute; split; reflexivity |]). apply Forall_nil. exact I. Qed.

End DoubleFacts.

(** ** Creation-block locator *)

(** Turns a hypothesis on the loop condition into the inequality between
    [lowBlock] and [highBlock] it stands for. *)
Ltac loop_cond_prop H :=
  unfold CreationBlock.loop_cond in H;
  first [apply Z.leb_le in H | apply Z.leb_gt in H].

Section CreationBlockFacts.
Import JS CreationBlock.

(** Whatever the bounds, the probed block lies between them. *)
Lemma midBlock_bounds (s : LoopState) :
  0 <= lowBlock s <= highBlock s -> representable (lowBlock s) ->
  lowBlock s <= midBlock s <= highBlock s.
Proof.
  intros H Hr. unfold midBlock, number_add. rewrite to_double_nonneg by lia.
  split; [now apply mid_lower | now apply mid_upper].
Qed.

Lemma midBlock_representable (s : LoopState) :
  0 <= lowBlock s <= highBlock s -> representable (midBlock s).
Proof.
  intros H. unfold midBlock, number_add. rewrite to_double_nonneg by lia.
  apply representable_half; [apply round_nonneg_nonneg; lia |].
  apply round_nonneg_representable. lia.
Qed.

(** While the bounds are below 2^53, the probed block is the midpoint,
    rounded up or down. *)
Lemma midBlock_safe (s : LoopState) :
  0 <= lowBlock s <= highBlock s -> highBlock s < 2 ^ 53 ->
  2 * midBlock s - 1 <= lowBlock s + highBlock s <= 2 * midBlock s + 1.
Proof.
  intros H Hs. unfold midBlock, number_add. rewrite to_double_nonneg by lia.
  apply half_rounded_sum. lia.
Qed.

(** There the two updates of the bounds are exact. *)
Lemma loop_body_safe (r : Result Exception string) (s : LoopState) :
  0 <= lowBlock s <= highBlock s -> highBlock s < 2 ^ 53 ->
  loop_body r s =
  match r with
  | Ok codeAtBlock =>
      if String.eqb codeAtBlock "0x"
      then {| lowBlock := midBlock s + 1; highBlock := highBlock s; foundBlock := foundBlock s |}
      else {| lowBlock := lowBlock s; highBlock := midBlock s - 1;
              foundBlock := Some (midBlock s) |}
  | Err _ =>
      {| lowBlock := midBlock s + 1; highBlock := highBlock s; foundBlock := foundBlock s |}
  end.
Proof.
  intros H Hs. pose proof (midBlock_safe s H Hs) as Hm.
  unfold loop_body, number_add, number_sub.
  rewrite !to_double_safe by lia. reflexivity.
Qed.

Lemma loop_body_shrinks (r : Result Exception string) (s : LoopState) :
  0 <= lowBlock s <= highBlock s -> highBlock s < 2 ^ 53 ->
  interval_width (loop_body r s) < interval_width s.
Proof.
  intros H Hs. pose proof (midBlock_safe s H Hs) as Hm.
  rewrite (loop_body_safe r s H Hs). unfold interval_width.
  destruct r as [c | e]; [destruct (String.eqb c "0x") | ]; cbn; lia.
Qed.

(** The bounds stay where the arithmetic is exact. *)
Lemma loop_body_keeps_safe (r : Result Exception string) (s : LoopState) :
  0 <= lowBlock s <= highBlock s -> highBlock s < 2 ^ 53 ->
  0 <= lowBlock (loop_body r s) /\ highBlock (loop_body r s) < 2 ^ 53.
Proof.
  intros H Hs. pose proof (midBlock_safe s H Hs) as Hm.
  rewrite (loop_body_safe r s H Hs).
  destruct r as [c | e]; [destruct (String.eqb c "0x") | ]; cbn; lia.
Qed.

Lemma while_loop_total (p : Provider) (addr : string) :
  forall (fuel calls : nat) (s : LoopState),
    0 <= lowBlock s -> highBlock s < 2 ^ 53 ->
    interval_width s <= Z.of_nat fuel ->
    exists s', while_loop fuel p addr calls s = Some s' /\ loop_cond s' = false.
Proof.
  induction fuel as [| fuel IH]; intros calls s Hlo Hhi Hw.
  - cbn. destruct (loop_cond s) eqn:Hc.
    + loop_cond_prop Hc. unfold interval_width in Hw. lia.
    + eauto.
  - cbn. destruct (loop_cond s) eqn:Hc.
    + loop_cond_prop Hc.
      pose proof (loop_body_shrinks
        (getCode p calls addr (Some (midBlock s))) s ltac:(lia) Hhi).
      pose proof (loop_body_keeps_safe
        (getCode p calls addr (Some (midBlock s))) s ltac:(lia) Hhi).
      apply IH; lia.
    + eauto.
Qed.

(** Whatever the provider does, the function returns or throws once
    the loop has the iterations the reported block number calls for. *)
Lemma findTokenCreationBlock_returns (p : Provider) (addr : string) (fuel : nat) :
  (forall latestBlock, getBlockNumber p = Ok latestBlock ->
                       latestBlock < 2 ^ 53 /\ (enough_fuel latestBlock <= fuel)%nat) ->
  exists r, findTokenCreationBlock fuel p addr = Some r.
Proof.
  intros Hfuel. unfold findTokenCreationBlock.
  destruct (getCode p 0%nat addr None) as [code | e]; [| eauto].
  destruct (String.eqb code "0x"); [eauto |].
  destruct (getBlockNumber p) as [latestBlock | e] eqn:Hbn; [| eauto].
  destruct (Hfuel latestBlock eq_refl) as [Hsafe Hf].
  destruct (while_loop_total p addr fuel 1%nat (initial latestBlock)) as (s' & -> & _).
  - cbn. lia.
  - exact Hsafe.
  - unfold enough_fuel in Hf. unfold interval_width, initial; cbn. lia.
  - destruct (foundBlock s'); eauto.
Qed.

(** A state the iteration maps to itself is never left. *)
Lemma never_leaves_step (p : Provider) (addr : string) (calls : nat) (s s' : LoopState) :
  loop_cond s = true ->
  loop_body (getCode p calls addr (Some (midBlock s))) s = s' ->
  never_leaves p addr (S calls) s' -> never_leaves p addr calls s.
Proof.
  intros Hc <- Hn [| fuel]; cbn [while_loop]; rewrite Hc; [reflexivity | apply Hn].
Qed.

Lemma never_leaves_fixed (p : Provider) (addr : string) (s : LoopState) :
  loop_cond s = true ->
  (forall calls, loop_body (getCode p calls addr (Some (midBlock s))) s = s) ->
  forall calls, never_leaves p addr calls s.
Proof.
  intros Hc Hfix calls fuel. revert calls.
  induction fuel as [| fuel IH]; intros calls; cbn [while_loop]; rewrite Hc; [reflexivity |].
  rewrite Hfix. apply IH.
Qed.

End CreationBlockFacts.

Section CreationBlockOracle.
Import JS CreationBlock.

Variables (p : Provider) (addr : string) (latestBlock K : Z) (hasCode : Z -> bool).
Hypothesis Horacle : code_oracle p addr latestBlock hasCode.
Hypothesis Hsafe : latestBlock < 2 ^ 53.
Hypothesis HK : 0 <= K <= latestBlock.
Hypothesis Hbelow : forall b, 0 <= b < K -> hasCode b = false.
Hypothesis Hfrom : forall b, K <= b <= latestBlock -> hasCode b = true.

Lemma search_inv_initial : search_inv latestBlock K (initial latestBlock).
Proof. unfold CreationBlock.search_inv, initial; cbn. intuition lia. Qed.

Lemma search_inv_step (calls : nat) (s : LoopState) :
  search_inv latestBlock K s -> lowBlock s <= highBlock s ->
  search_inv latestBlock K (loop_body (getCode p calls addr (Some (midBlock s))) s).
Proof.
  intros (Hlo & Hhi & Hlat & Hfound) Hle.
  pose proof (midBlock_safe s ltac:(lia) ltac:(lia)) as Hmid.
  rewrite loop_body_safe by lia.
  destruct Horacle as [_ Hprobe].
  destruct (Hprobe calls (Some (midBlock s))) as (code & -> & Hcode).
  cbn in Hcode. rewrite Hcode.
  set (mid := midBlock s) in *.
  destruct (Z_lt_le_dec mid K) as [Hlt | Hge].
  - rewrite Hbelow by lia. unfold CreationBlock.search_inv; cbn.
    repeat split; try lia. exact Hfound.
  - rewrite Hfrom by lia. unfold CreationBlock.search_inv; cbn.
    repeat split; try lia. left. f_equal. lia.
Qed.

Lemma search_inv_exit (s : LoopState) :
  search_inv latestBlock K s -> loop_cond s = false -> foundBlock s = Some K.
Proof.
  intros (Hlo & Hhi & Hlat & Hfound) Hc. loop_cond_prop Hc.
  destruct Hfound as [-> | [Heq _]]; [f_equal; lia | lia].
Qed.

Lemma while_loop_finds :
  forall (fuel calls : nat) (s : LoopState),
    search_inv latestBlock K s -> interval_width s <= Z.of_nat fuel ->
    exists s', while_loop fuel p addr calls s = Some s' /\ foundBlock s' = Some K.
Proof.
  induction fuel as [| fuel IH]; intros calls s Hinv Hw; cbn;
    destruct (loop_cond s) eqn:Hc;
    try (exists s; split; [reflexivity | now apply search_inv_exit]).
  - loop_cond_prop Hc. unfold interval_width in Hw. lia.
  - loop_cond_prop Hc.
    apply IH; [now apply search_inv_step |].
    destruct Hinv as (Hlo & Hhi & Hlat & _).
    pose proof (loop_body_shrinks (getCode p calls addr (Some (midBlock s))) s
                  ltac:(lia) ltac:(lia)). lia.
Qed.

Lemma findTokenCreationBlock_oracle (fuel : nat) :
  (enough_fuel latestBlock <= fuel)%nat ->
  findTokenCreationBlock fuel p addr = Some (Ok K).
Proof.
  intros Hfuel. unfold findTokenCreationBlock.
  destruct Horacle as [Hbn Hprobe].
  destruct (Hprobe O None) as (code & -> & Hcode). cbn in Hcode.
  rewrite Hcode, Hfrom by lia. cbn. rewrite Hbn.
  destruct (while_loop_finds fuel 1%nat (initial latestBlock) search_inv_initial)
    as (s' & -> & ->); [| reflexivity].
  unfold enough_fuel in Hfuel. unfold interval_width, initial; cbn. lia.
Qed.

End CreationBlockOracle.

Lemma oracle_provider_is_oracle (hasCode : Z -> bool) (latestBlock : Z) (addr : string) :
  CreationBlock.code_oracle (CreationBlock.oracle_provider hasCode latestBlock)
    addr latestBlock hasCode.
Proof.
  split; [reflexivity |]. intros calls tag. cbn.
  eexists; split; [reflexivity |].
  destruct tag as [b |]; cbn; now destruct (hasCode _).
Qed.

(** C1, amended.  Creation-block locator: for every latestBlock below
    2^53 (the block numbers a double holds exactly, and the only ones
    ethers reports), every block K with 0 <= K <= latestBlock and every
    provider that answers like a monotone code-presence oracle (no code at
    the blocks below K, code at every block from K to latestBlock),
    [findTokenCreationBlock] returns exactly K, as soon as the loop is
    given the latestBlock + 1 iterations that always suffice. *)
Theorem C1_locator_returns_creation_block :
  forall (p : CreationBlock.Provider) (addr : string) (latestBlock K : Z)
         (hasCode : Z -> bool) (fuel : nat),
    CreationBlock.code_oracle p addr latestBlock hasCode ->
    latestBlock < 2 ^ 53 ->
    0 <= K <= latestBlock ->
    (forall b, 0 <= b < K -> hasCode b = false) ->
    (forall b, K <= b <= latestBlock -> hasCode b = true) ->
    (CreationBlock.enough_fuel latestBlock <= fuel)%nat ->
    CreationBlock.findTokenCreationBlock fuel p addr = Some (Ok K).
Proof.
  intros p addr latestBlock K hasCode fuel Ho Hs HK Hb Hf Hfuel.
  now apply (findTokenCreationBlock_oracle p addr latestBlock K hasCode).
Qed.

Lemma C1_locator_witness :
  CreationBlock.findTokenCreationBlock 1001
    (CreationBlock.oracle_provider (fun b => 637 <=? b) 1000) "0x024ac9eb"
  = Some (Ok 637).
Proof.
  apply (C1_locator_returns_creation_block _ _ 1000 637 (fun b => 637 <=? b)).
  - apply oracle_provider_is_oracle.
  - lia.
  - lia.
  - intros b Hb. apply Z.leb_gt. lia.
  - intros b Hb. apply Z.leb_le. lia.
  - vm_compute. lia.
Defined.

(** C1 as stated fails beyond 2^53.  With latestBlock = K = 2^53 + 2 and
    the oracle that has code from K on, the search reaches
    lowBlock = 2^53, highBlock = 2^53 + 2; the sum of the two is rounded
    to 2^54, block 2^53 is probed, has no code, and
    [lowBlock = midBlock + 1] is 2^53 again: the loop is never left and K
    is never returned. *)
Lemma C1_unsafe_head_counterexample :
  let K := 2 ^ 53 + 2 in
  let latestBlock := 2 ^ 53 + 2 in
  let hasCode := fun b : Z => K <=? b in
  let p := CreationBlock.oracle_provider hasCode latestBlock in
  CreationBlock.code_oracle p "0x024ac9eb" latestBlock hasCode /\
  0 <= K <= latestBlock /\
  (forall b, 0 <= b < K -> hasCode b = false) /\
  (forall b, K <= b <= latestBlock -> hasCode b = true) /\
  (forall fuel : nat, CreationBlock.findTokenCreationBlock fuel p "0x024ac9eb" = None).
Proof.
  intros K latestBlock hasCode p.
  split; [apply oracle_provider_is_oracle |].
  split; [unfold K, latestBlock; lia |].
  split; [intros b Hb; apply Z.leb_gt; lia |].
  split; [intros b Hb; apply Z.leb_le; lia |].
  assert (Hloop : CreationBlock.never_leaves p "0x024ac9eb" 1
                    (CreationBlock.initial latestBlock)).
  { do 53 (eapply never_leaves_step; [vm_compute; reflexivity | vm_compute; reflexivity |]).
    apply never_leaves_fixed; [vm_compute; reflexivity |].
    intros calls. vm_compute. reflexivity. }
  intros fuel. unfold CreationBlock.findTokenCreationBlock.
  change (CreationBlock.getCode p 0 "0x024ac9eb" None)
    with (Ok (if hasCode latestBlock then "0x6080604052" else "0x") : Result JS.Exception string).
  replace (hasCode latestBlock) with true by (vm_compute; reflexivity).
  change (CreationBlock.getBlockNumber p) with (Ok latestBlock : Result JS.Exception Z).
  cbv beta iota. change (String.eqb "0x6080604052" "0x") with false. cbv beta iota.
  now rewrite (Hloop fuel).
Qed.

(** C9, amended.  Termination of the binary search: from any latestBlock
    with 0 <= latestBlock < 2^53 and whatever each probe does (code, no
    code, or an exception, call by call), every iteration strictly shrinks
    the interval [lowBlock .. highBlock], and the loop is left after at
    most latestBlock + 1 iterations, with lowBlock > highBlock. *)
Theorem C9_binary_search_terminates :
  forall (p : CreationBlock.Provider) (addr : string) (latestBlock : Z) (calls : nat),
    0 <= latestBlock < 2 ^ 53 ->
    (forall (r : Result JS.Exception string) (s : CreationBlock.LoopState),
       CreationBlock.loop_cond s = true ->
       0 <= CreationBlock.lowBlock s -> CreationBlock.highBlock s <= latestBlock ->
       CreationBlock.interval_width (CreationBlock.loop_body r s)
       < CreationBlock.interval_width s) /\
    (forall fuel : nat,
       (CreationBlock.enough_fuel latestBlock <= fuel)%nat ->
       exists s',
         CreationBlock.while_loop fuel p addr calls (CreationBlock.initial latestBlock) = Some s' /\
         CreationBlock.highBlock s' < CreationBlock.lowBlock s').
Proof.
  intros p addr latestBlock calls Hl. split.
  - intros r s Hc Hlo Hhi. loop_cond_prop Hc. apply loop_body_shrinks; lia.
  - intros fuel Hfuel.
    destruct (while_loop_total p addr fuel calls (CreationBlock.initial latestBlock))
      as (s' & Hrun & Hc).
    + cbn. lia.
    + cbn. lia.
    + unfold CreationBlock.enough_fuel in Hfuel.
      unfold CreationBlock.interval_width, CreationBlock.initial; cbn. lia.
    + exists s'. split; [exact Hrun |]. now loop_cond_prop Hc.
Qed.

Lemma C9_binary_search_witness :
  exists s',
    CreationBlock.while_loop 21 (CreationBlock.flaky_provider 20) "0x024ac9eb" 0
      (CreationBlock.initial 20) = Some s' /\
    CreationBlock.highBlock s' < CreationBlock.lowBlock s'.
Proof.
  apply (proj2 (C9_binary_search_terminates
                  (CreationBlock.flaky_provider 20) "0x024ac9eb" 20 0 ltac:(lia))).
  vm_compute. lia.
Defined.

(** C9 as stated fails at latestBlock = 2^53.  On a node whose every
    probe at a block number throws, the search reaches
    lowBlock = highBlock = 2^53; there [lowBlock = midBlock + 1] is 2^53
    again, the interval keeps its width, and no number of iterations
    leaves the loop. *)
Lemma C9_unsafe_head_counterexample :
  let s := {| CreationBlock.lowBlock := 2 ^ 53; CreationBlock.highBlock := 2 ^ 53;
              CreationBlock.foundBlock := None |} in
  (CreationBlock.loop_cond s = true /\
   CreationBlock.interval_width
     (CreationBlock.loop_body (Err (JS.Error "missing trie node")) s)
   = CreationBlock.interval_width s) /\
  (forall fuel : nat,
     CreationBlock.while_loop fuel (LocatorBackends.stateless_provider (2 ^ 53)) "0x024ac9eb"
       1 (CreationBlock.initial (2 ^ 53)) = None).
Proof.
  intros s. split; [split; vm_compute; reflexivity |].
  change (CreationBlock.never_leaves (LocatorBackends.stateless_provider (2 ^ 53))
            "0x024ac9eb" 1 (CreationBlock.initial (2 ^ 53))).
  do 53 (eapply never_leaves_step; [vm_compute; reflexivity | vm_compute; reflexivity |]).
  apply never_leaves_fixed; [vm_compute; reflexivity |].
  intros calls. vm_compute. reflexivity.
Qed.

(** ** Error classifiers *)

Section ErrorHandlingFacts.
Import JS ErrorHandling.

Lemma prefix_spec (pat s : string) :
  String.prefix pat s = true <-> exists b, s = pat +:+ b.
Proof.
  revert pat. induction s as [| c s IH]; intros [| a pat]; cbn.
  - split; [exists EmptyString; reflexivity | reflexivity].
  - split; [discriminate | intros [b Hb]; discriminate].
  - split; [eexists; reflexivity | reflexivity].
  - destruct (ascii_dec a c) as [-> | Hne].
    + rewrite IH. split; intros [b Hb]; exists b;
        rewrite append_cons in *; congruence.
    + split; [discriminate | intros [b Hb]; rewrite append_cons in Hb; congruence].
Qed.

(** [includes] is the substring test. *)
Lemma includes_spec (s pat : string) :
  includes s pat = true <-> exists a b, s = a +:+ pat +:+ b.
Proof.
  induction s as [| c s IH]; cbn [includes]; rewrite orb_true_iff, prefix_spec.
  - split.
    + intros [[b Hb] | H]; [| discriminate]. exists EmptyString, b. exact Hb.
    + intros ([| a0 a] & b & H); [left; exists b; exact H | discriminate].
  - rewrite IH. split.
    + intros [[b Hb] | (a & b & Hab)].
      * exists EmptyString, b. exact Hb.
      * exists (String c a), b. rewrite append_cons. now rewrite Hab.
    + intros ([| a0 a] & b & H).
      * left. exists b. exact H.
      * right. exists a, b. rewrite append_cons in H. congruence.
Qed.

(** With a text message, [parseBlockchainError] is its chain of rules on
    that text. *)
Lemma parseBlockchainError_text (error : JSValue) (m : string) :
  raw_message error = JSStr m ->
  parseBlockchainError error =
  Ok (if includes m "insufficient funds" then
        {| type := INSUFFICIENT_FUNDS;
           message := "You do not have enough RON to complete this transaction. Make sure you have enough for gas fees plus the creation fee and initial liquidity.";
           originalError := error |}
      else if includes m "user rejected" || includes m "User denied" then
        {| type := USER_REJECTED;
           message := "You rejected the transaction in your wallet. Please try again and approve the transaction.";
           originalError := error |}
      else if includes m "network" || includes m "timeout" then
        {| type := NETWORK_ERROR;
           message := "Network error occurred. Please check your internet connection and try again.";
           originalError := error |}
      else if includes m "InsufficientOutput" || includes m "InvalidAmountIn" then
        {| type := CONTRACT_ERROR;
           message := "Invalid initial amount. Please make sure you are providing a valid amount for initial liquidity.";
           originalError := error |}
      else if includes m "InvalidTokenMetadata" then
        {| type := CONTRACT_ERROR;
           message := "Invalid token metadata. Please check that all token details (name, symbol, etc.) are properly formatted.";
           originalError := error |}
      else
        {| type := UNKNOWN_ERROR;
           message := "An unexpected error occurred: " +:+ m;
           originalError := error |}).
Proof.
  intros Hm. unfold parseBlockchainError. rewrite Hm.
  unfold or_lazy, call_includes. cbn [mbind result_bind to_string].
  repeat (match goal with
          | |- context [includes m ?pat] => destruct (includes m pat); cbn [orb mbind result_bind]
          end; try reflexivity).
Qed.

(** An absent or falsy message counts as the empty text. *)
Lemma raw_message_falsy (error : JSValue) :
  truthy (opt_get error "message") = false -> raw_message error = JSStr "".
Proof. intros H. unfold raw_message, or_value. now rewrite H. Qed.

Lemma includes_empty (pat : string) : pat <> "" -> includes "" pat = false.
Proof. destruct pat; [congruence | reflexivity]. Qed.

End ErrorHandlingFacts.

(** C7, as the code has it.  For every raw error whose message is the
    text m: if m contains "insufficient funds" the kind is
    INSUFFICIENT_FUNDS; if m contains "User denied" and not "insufficient
    funds" the kind is USER_REJECTED; an upload error with status 413
    whose message does not contain "unauthorized" is UPLOAD_FAILED; and
    when no rule matches m the result is UNKNOWN_ERROR, its message
    carrying m and its cause the raw error. *)
Theorem C7_error_classification :
  forall (error : JS.JSValue) (m : string),
    ErrorHandling.raw_message error = JS.JSStr m ->
    (JS.includes m "insufficient funds" = true ->
       ErrorHandling.type <$> ErrorHandling.parseBlockchainError error
       = Ok ErrorHandling.INSUFFICIENT_FUNDS) /\
    (JS.includes m "User denied" = true ->
     JS.includes m "insufficient funds" = false ->
       ErrorHandling.type <$> ErrorHandling.parseBlockchainError error
       = Ok ErrorHandling.USER_REJECTED) /\
    (JS.opt_get error "status" = JS.JSNum 413 ->
     JS.includes m "unauthorized" = false ->
       ErrorHandling.type <$> ErrorHandling.parseUploadError error
       = Ok ErrorHandling.UPLOAD_FAILED) /\
    (ErrorHandling.matches_no_rule m ->
       ErrorHandling.parseBlockchainError error
       = Ok {| ErrorHandling.type := ErrorHandling.UNKNOWN_ERROR;
               ErrorHandling.message := "An unexpected error occurred: " +:+ m;
               ErrorHandling.originalError := error |}).
Proof.
  intros error m Hm. repeat split.
  - intros H. rewrite (parseBlockchainError_text error m Hm), H. reflexivity.
  - intros H1 H0. rewrite (parseBlockchainError_text error m Hm), H0, H1.
    now rewrite orb_true_r.
  - intros Hs Hu. unfold ErrorHandling.parseUploadError.
    rewrite Hm, Hs. cbn. rewrite Hu. reflexivity.
  - intros Hno. rewrite (parseBlockchainError_text error m Hm).
    unfold ErrorHandling.matches_no_rule, ErrorHandling.blockchain_patterns in Hno.
    repeat match goal with
           | H : Forall _ (_ :: _) |- _ => apply Forall_cons in H; destruct H as [? H]
           end.
    repeat match goal with
           | H : JS.includes m _ = false |- _ => rewrite H; clear H
           end.
    reflexivity.
Qed.

Lemma C7_error_classification_witness :
  let error : JS.JSValue :=
    JS.JSObj {[ "status" := JS.JSNum 413; "message" := JS.JSStr "User denied transaction signature" ]} in
  ErrorHandling.type <$> ErrorHandling.parseBlockchainError error = Ok ErrorHandling.USER_REJECTED /\
  ErrorHandling.type <$> ErrorHandling.parseUploadError error = Ok ErrorHandling.UPLOAD_FAILED.
Proof.
  intros error.
  pose proof (C7_error_classification error "User denied transaction signature" eq_refl)
    as (_ & Hdenied & Hupload & _).
  split; [apply Hdenied | apply Hupload]; reflexivity.
Defined.

(** C7 as stated fails on the order of the rules: a message that contains
    "User denied" and also "insufficient funds" is INSUFFICIENT_FUNDS, and
    an upload error with status 413 whose message contains "unauthorized"
    is AUTHENTICATION_ERROR. *)
Lemma C7_rule_order_counterexample :
  let error : JS.JSValue :=
    JS.JSObj {[ "message" := JS.JSStr "User denied: insufficient funds for gas" ]} in
  let upload : JS.JSValue :=
    JS.JSObj {[ "status" := JS.JSNum 413; "message" := JS.JSStr "unauthorized" ]} in
  (JS.includes "User denied: insufficient funds for gas" "User denied" = true /\
   ErrorHandling.type <$> ErrorHandling.parseBlockchainError error
     <> Ok ErrorHandling.USER_REJECTED) /\
  (JS.opt_get upload "status" = JS.JSNum 413 /\
   ErrorHandling.type <$> ErrorHandling.parseUploadError upload
     <> Ok ErrorHandling.UPLOAD_FAILED).
Proof. vm_compute. repeat split; discriminate. Qed.

(** C10, as the code has it.  [parseBlockchainError] returns a
    [TokenCreationError], and does not throw, on every input whose message
    is absent, falsy or a text: null, undefined and an object without a
    message field among them; an input with no usable message is treated
    as having the empty message and classified UNKNOWN_ERROR. *)
Theorem C10_parseBlockchainError_total_on_text :
  forall error : JS.JSValue,
    (forall m : string,
       ErrorHandling.raw_message error = JS.JSStr m ->
       exists e, ErrorHandling.parseBlockchainError error = Ok e) /\
    (JS.truthy (JS.opt_get error "message") = false ->
       ErrorHandling.parseBlockchainError error
       = Ok {| ErrorHandling.type := ErrorHandling.UNKNOWN_ERROR;
               ErrorHandling.message := "An unexpected error occurred: ";
               ErrorHandling.originalError := error |}) /\
    (error = JS.JSNull \/ error = JS.JSUndefined \/
     (exists fields, error = JS.JSObj fields /\ fields !! "message" = None) ->
       JS.truthy (JS.opt_get error "message") = false).
Proof.
  intros error. repeat split.
  - intros m Hm. rewrite (parseBlockchainError_text error m Hm). eauto.
  - intros Hf. rewrite (parseBlockchainError_text error "" (raw_message_falsy error Hf)).
    reflexivity.
  - intros [-> | [-> | (fields & -> & Hnone)]]; cbn; [reflexivity .. |].
    now rewrite Hnone.
Qed.

Lemma C10_parseBlockchainError_witness :
  (exists e, ErrorHandling.parseBlockchainError
               (JS.JSObj {[ "message" := JS.JSStr "execution reverted" ]}) = Ok e) /\
  ErrorHandling.parseBlockchainError JS.JSNull
  = Ok {| ErrorHandling.type := ErrorHandling.UNKNOWN_ERROR;
          ErrorHandling.message := "An unexpected error occurred: ";
          ErrorHandling.originalError := JS.JSNull |}.
Proof.
  split.
  - apply (proj1 (C10_parseBlockchainError_total_on_text
                    (JS.JSObj {[ "message" := JS.JSStr "execution reverted" ]}))
             "execution reverted").
    reflexivity.
  - apply (proj1 (proj2 (C10_parseBlockchainError_total_on_text JS.JSNull))).
    reflexivity.
Defined.

(** C10 as stated fails on an input whose message is neither falsy nor a
    text: the first [includes] call throws a TypeError. *)
Lemma C10_non_text_message_counterexample :
  ErrorHandling.parseBlockchainError (JS.JSObj {[ "message" := JS.JSNum 42 ]})
  = Err (JS.TypeError "errorMessage.includes is not a function").
Proof. reflexivity. Qed.

(** ** Creation-event lookup *)

Section TokenMetadataFacts.
Import JS Constants GetTokenInfo.



(** What the shipped [getTokenMetadata] does with the events its query
    returned. *)
Lemma getTokenMetadata_outcome (chain : Chain) (NETWORK : Network) (tokenAddress : string)
    (isTestnet : bool) (currentBlock : Z) (events : list EventLog) :
  getBlockNumber chain = Ok currentBlock ->
  queryFilter chain (contract_address NETWORK isTestnet)
    {| q_token := tokenAddress; q_fromBlock := Z.max 0 (currentBlock - 10000);
       q_toBlock := None |} = Ok events ->
  (getTokenMetadata chain NETWORK tokenAddress isTestnet).2 =
  match last events with
  | None => Err (Error ("No creation event found for token: " +:+ tokenAddress))
  | Some creationEvent =>
      match ev_args creationEvent with
      | None => Err (Error ("Creation event for token " +:+ tokenAddress +:+ " has no arguments"))
      | Some args =>
          Ok {| name := arg_name args; symbol := arg_symbol args;
                description := arg_description args; extended := arg_extended args;
                imageUrl := arg_tokenUrlImage args |}
      end
  end.
Proof.
  intros Hbn Hq. unfold getTokenMetadata. rewrite Hbn. cbn. rewrite Hq. cbn.
  destruct events as [| e events] using rev_ind; [reflexivity |].
  rewrite last_snoc, length_app. cbn.
  replace (length events + 1)%nat with (S (length events)) by lia. cbn.
  rewrite Nat.sub_0_r.
  rewrite lookup_app_r by lia. rewrite Nat.sub_diag. reflexivity.
Qed.

Lemma ascending_last (earlier : list EventLog) (e e' : EventLog) :
  ascending (earlier ++ [e]) -> e' ∈ earlier -> ev_blockNumber e' <= ev_blockNumber e.
Proof.
  intros Hasc Hin. apply list_elem_of_lookup in Hin as [i Hi].
  apply (Hasc i (length earlier) e' e).
  - rewrite lookup_app_l; [exact Hi | now apply lookup_lt_Some in Hi].
  - rewrite lookup_app_r by lia. now rewrite Nat.sub_diag.
  - apply lookup_lt_Some in Hi. lia.
Qed.

(** The default window of the proposed update: the most recent 500 blocks
    at most, ending at the current block. *)
Lemma proposed_default_window (chain : Chain) (NETWORK : Network) (tokenAddress : string)
    (isTestnet : bool) (currentBlock : Z) :
  getBlockNumber chain = Ok currentBlock -> 0 <= currentBlock ->
  exists q,
    (ProposedUpdates.getTokenMetadata chain NETWORK tokenAddress isTestnet None).1 = [q] /\
    q_fromBlock q = Z.max 0 (currentBlock - 499) /\
    q_toBlock q = Some currentBlock /\
    query_span currentBlock q <= ProposedUpdates.maxBlockRange.
Proof.
  intros Hbn Hcb. unfold ProposedUpdates.getTokenMetadata. rewrite Hbn. cbn.
  eexists; split; [reflexivity |]. cbn.
  unfold query_span, query_to, ProposedUpdates.maxBlockRange; cbn.
  repeat split; [f_equal |]; lia.
Qed.

(** The window of the shipped code: 10000 blocks back, up to the latest. *)
Lemma shipped_default_window (chain : Chain) (NETWORK : Network) (tokenAddress : string)
    (isTestnet : bool) (currentBlock : Z) :
  getBlockNumber chain = Ok currentBlock ->
  (getTokenMetadata chain NETWORK tokenAddress isTestnet).1 =
  [{| q_token := tokenAddress; q_fromBlock := Z.max 0 (currentBlock - 10000);
      q_toBlock := None |}].
Proof. intros Hbn. unfold getTokenMetadata. now rewrite Hbn. Qed.

End TokenMetadataFacts.




(** C3 at the failing input.  With the chain head at block 20000 and the
    token created at block 19990, the shipped [getTokenMetadata] queries
    from block 10000 to the latest block, 10001 blocks instead of the
    most recent 500, and a node that serves 500 blocks per query refuses
    it; the proposed update queries [19501..20000] and finds the event. *)
Theorem C3_shipped_window_exceeds_limit :
  let logs := [GetTokenInfo.creation_event 19990 "0xT" "Mochi Inu"] in
  let chain := GetTokenInfo.fake_chain (Some 500) 20000 logs in
  GetTokenInfo.getTokenMetadata chain Constants.test_network "0xT" false
  = ([{| GetTokenInfo.q_token := "0xT"; GetTokenInfo.q_fromBlock := 10000;
         GetTokenInfo.q_toBlock := None |}],
     Err (JS.Error "invalid param: invalid getLogs request, cannot get more than 500 blocks")) /\
  GetTokenInfo.query_span 20000
    {| GetTokenInfo.q_token := "0xT"; GetTokenInfo.q_fromBlock := 10000;
       GetTokenInfo.q_toBlock := None |} = 10001 /\
  ProposedUpdates.getTokenMetadata chain Constants.test_network "0xT" false None
  = ([{| GetTokenInfo.q_token := "0xT"; GetTokenInfo.q_fromBlock := 19501;
         GetTokenInfo.q_toBlock := Some 20000 |}],
     Ok {| GetTokenInfo.name := "Mochi Inu"; GetTokenInfo.symbol := "MINU";
           GetTokenInfo.description := ""; GetTokenInfo.extended := "{}";
           GetTokenInfo.imageUrl := "ipfs://image" |}).
Proof. vm_compute. repeat split. Qed.

(** C4, as the code has it.  For every result list of the creation-event
    query: if it is empty, [getTokenMetadata] fails with the "No creation
    event found" error (MetadataNotFound); if its last element carries
    decoded arguments, the metadata of that last element is returned, and
    on a list in ascending block order no other element has a higher
    block; if the last element carries no arguments, the operation fails
    with the "has no arguments" error. *)
Theorem C4_last_event_selected :
  forall (chain : GetTokenInfo.Chain) (NETWORK : Constants.Network) (tokenAddress : string)
         (isTestnet : bool) (currentBlock : Z) (events : list GetTokenInfo.EventLog),
    GetTokenInfo.getBlockNumber chain = Ok currentBlock ->
    GetTokenInfo.queryFilter chain (Constants.contract_address NETWORK isTestnet)
      {| GetTokenInfo.q_token := tokenAddress;
         GetTokenInfo.q_fromBlock := Z.max 0 (currentBlock - 10000);
         GetTokenInfo.q_toBlock := None |} = Ok events ->
    let outcome := (GetTokenInfo.getTokenMetadata chain NETWORK tokenAddress isTestnet).2 in
    (events = [] ->
       outcome = Err (JS.Error ("No creation event found for token: " +:+ tokenAddress))) /\
    (forall earlier e args,
       events = earlier ++ [e] -> GetTokenInfo.ev_args e = Some args ->
       outcome = Ok {| GetTokenInfo.name := GetTokenInfo.arg_name args;
                       GetTokenInfo.symbol := GetTokenInfo.arg_symbol args;
                       GetTokenInfo.description := GetTokenInfo.arg_description args;
                       GetTokenInfo.extended := GetTokenInfo.arg_extended args;
                       GetTokenInfo.imageUrl := GetTokenInfo.arg_tokenUrlImage args |} /\
       (GetTokenInfo.ascending events ->
        forall e', e' ∈ earlier ->
                   GetTokenInfo.ev_blockNumber e' <= GetTokenInfo.ev_blockNumber e)) /\
    (forall earlier e,
       events = earlier ++ [e] -> GetTokenInfo.ev_args e = None ->
       outcome = Err (JS.Error ("Creation event for token " +:+ tokenAddress +:+
                                " has no arguments"))).
Proof.
  intros chain NETWORK tokenAddress isTestnet currentBlock events Hbn Hq outcome.
  subst outcome.
  rewrite (getTokenMetadata_outcome chain NETWORK tokenAddress isTestnet currentBlock events Hbn Hq).
  split; [| split].
  - now intros ->.
  - intros earlier e args -> Hargs. split.
    + rewrite last_snoc. now rewrite Hargs.
    + intros Hasc e' Hin. now apply (ascending_last earlier e e').
  - intros earlier e -> Hargs. rewrite last_snoc. now rewrite Hargs.
Qed.

Lemma C4_last_event_selected_witness :
  let logs := [GetTokenInfo.creation_event 10 "0xT" "first"; GetTokenInfo.creation_event 20 "0xT" "second"] in
  (GetTokenInfo.getTokenMetadata (GetTokenInfo.fake_chain None 100 logs)
     Constants.test_network "0xT" false).2
  = Ok {| GetTokenInfo.name := "second"; GetTokenInfo.symbol := "MINU";
          GetTokenInfo.description := ""; GetTokenInfo.extended := "{}";
          GetTokenInfo.imageUrl := "ipfs://image" |}.
Proof.
  intros logs.
  refine (proj1 (proj1 (proj2 (C4_last_event_selected
            (GetTokenInfo.fake_chain None 100 logs) Constants.test_network "0xT" false
            100 logs eq_refl eq_refl))
          [GetTokenInfo.creation_event 10 "0xT" "first"]
          (GetTokenInfo.creation_event 20 "0xT" "second") _ eq_refl eq_refl)).
Defined.

(** C4 as stated fails when the last event of a non-empty result carries
    no decoded arguments: the operation throws instead of returning
    metadata. *)
Lemma C4_undecoded_last_event_counterexample :
  let logs := [GetTokenInfo.creation_event 10 "0xT" "first"; GetTokenInfo.undecoded_event 20 "0xT"] in
  let chain := GetTokenInfo.fake_chain None 100 logs in
  GetTokenInfo.queryFilter chain (Constants.contract_address Constants.test_network false)
    {| GetTokenInfo.q_token := "0xT"; GetTokenInfo.q_fromBlock := 0;
       GetTokenInfo.q_toBlock := None |} = Ok logs /\
  (GetTokenInfo.getTokenMetadata chain Constants.test_network "0xT" false).2
  = Err (JS.Error "Creation event for token 0xT has no arguments").
Proof. vm_compute. split; reflexivity. Qed.

(** ** Launch: fee, call and address extraction *)

Section ParseEtherFacts.
Import JS Ethers.

Lemma digits_acc_shift (s : string) :
  forall acc : Z,
    digits_acc acc s = (fun v => acc * 10 ^ Z.of_nat (String.length s) + v) <$> digits_acc 0 s.
Proof.
  induction s as [| c s IH]; intros acc; cbn [digits_acc String.length].
  - cbn. f_equal. lia.
  - destruct (digit_of c) as [d |]; [| reflexivity].
    rewrite (IH (10 * acc + d)), (IH (10 * 0 + d)).
    destruct (digits_acc 0 s) as [v |]; cbn; [| reflexivity].
    f_equal. rewrite Nat2Z.inj_succ, Z.pow_succ_r by lia. lia.
Qed.

Lemma digits_acc_app (a b : string) :
  forall acc : Z, digits_acc acc (a +:+ b) = digits_acc acc a ≫= fun x => digits_acc x b.
Proof.
  induction a as [| c a IH]; intros acc; [reflexivity |].
  rewrite append_cons. cbn [digits_acc].
  destruct (digit_of c); [apply IH | reflexivity].
Qed.

Lemma digits_acc_zeros (k : nat) :
  forall acc : Z, digits_acc acc (zeros k) = Some (acc * 10 ^ Z.of_nat k).
Proof.
  induction k as [| k IH]; intros acc; cbn [zeros digits_acc].
  - f_equal. cbn. lia.
  - change (digit_of "0") with (Some 0). cbv beta iota. rewrite IH. f_equal.
    rewrite Nat2Z.inj_succ, Z.pow_succ_r by lia. lia.
Qed.

Lemma length_zeros (k : nat) : String.length (zeros k) = k.
Proof. induction k; cbn; congruence. Qed.

(** On digits followed by something that does not start with a digit,
    [span_digits] splits exactly there. *)
Lemma span_digits_app (w rest : string) (W : Z) :
  digits_value w = Some W ->
  (rest = EmptyString \/ exists c r, rest = String c r /\ digit_of c = None) ->
  span_digits (w +:+ rest) = (w, rest).
Proof.
  unfold digits_value. generalize 0 as acc. revert W.
  induction w as [| c w IH]; intros W acc Hw Hrest.
  - destruct Hrest as [-> | (c & r & -> & Hc)]; [reflexivity |].
    rewrite append_nil. cbn [span_digits]. unfold is_digit. rewrite Hc. reflexivity.
  - rewrite append_cons. cbn [span_digits digits_acc] in *.
    unfold is_digit. destruct (digit_of c) as [d |]; [| discriminate].
    cbn. now rewrite (IH W (10 * acc + d) Hw Hrest).
Qed.

Lemma split_sign_digit (c : ascii) (s : string) (d : Z) :
  digit_of c = Some d -> split_sign (String c s) = (false, String c s).
Proof.
  intros Hd. unfold split_sign.
  destruct c as [[] [] [] [] [] [] [] []]; try reflexivity; discriminate.
Qed.

Lemma in_range_512_spec (v : Z) :
  in_range_512 v = true <-> - 2 ^ 511 <= v < 2 ^ 511.
Proof. unfold in_range_512. rewrite andb_true_iff, Z.leb_le, Z.ltb_lt. tauto. Qed.

(** [parseEther] reads the numeral w.f as w * 10^18 + f * 10^(18 - |f|):
    whole RON and up to 18 decimals, in base units. *)
Lemma parseEther_decimal (w f : string) (W F : Z) :
  digits_value w = Some W -> digits_value f = Some F ->
  w <> EmptyString -> (String.length f <= 18)%nat ->
  - 2 ^ 511 <= W * 10 ^ 18 + F * 10 ^ Z.of_nat (18 - String.length f) < 2 ^ 511 ->
  parseEther (w +:+ "." +:+ f)
  = Ok (W * 10 ^ 18 + F * 10 ^ Z.of_nat (18 - String.length f)).
Proof.
  intros Hw Hf Hne Hlen Hrange. unfold parseEther, parseUnits.
  destruct w as [| c w]; [congruence |].
  assert (Hc : exists d, digit_of c = Some d).
  { unfold digits_value in Hw. cbn [digits_acc] in Hw.
    destruct (digit_of c) as [d |]; [eauto | discriminate]. }
  destruct Hc as [d Hd].
  rewrite append_cons, (split_sign_digit c _ d Hd), <- append_cons.
  rewrite (span_digits_app (String c w) ("." +:+ f) W Hw)
    by (right; exists "."%char, f; split; reflexivity).
  change (skip_point ("." +:+ f)) with f.
  rewrite <- (append_nil_r f) at 1.
  rewrite (span_digits_app f EmptyString F Hf) by now left.
  set (k := (18 - String.length f)%nat).
  set (padded := f +:+ zeros k).
  assert (Hpad : String.length padded = 18%nat).
  { unfold padded, k. rewrite length_append, length_zeros. lia. }
  change (String.eqb EmptyString EmptyString) with true.
  change (String.eqb (String c w) EmptyString) with false.
  cbn [negb orb String.length Nat.add Nat.eqb].
  rewrite Hpad, Nat.sub_diag. rewrite <- Hpad at 1.
  rewrite substring_tail_empty. cbn [all_zeros negb].
  rewrite <- Hpad, substring_whole.
  unfold digits_value, padded. rewrite !digits_acc_app.
  unfold digits_value in Hw, Hf. rewrite Hw. cbn [mbind option_bind].
  rewrite digits_acc_app, (digits_acc_shift f W), Hf. cbn [fmap option_fmap option_map mbind option_bind].
  rewrite digits_acc_zeros.
  replace ((W * 10 ^ Z.of_nat (String.length f) + F) * 10 ^ Z.of_nat k)
    with (W * 10 ^ 18 + F * 10 ^ Z.of_nat k).
  - apply in_range_512_spec in Hrange. fold k in Hrange. now rewrite Hrange.
  - rewrite Z.mul_add_distr_r, <- Z.mul_assoc, <- Z.pow_add_r by lia.
    do 3 f_equal. unfold k. lia.
Qed.

End ParseEtherFacts.

Section CreateTokenFacts.
Import JS Ethers Constants CreateToken.

(** The loop returns the address of the first log that matches. *)
Lemma scan_logs_first_match (before after : list Log) (log : Log) :
  Forall (fun l => is_creation_log l = false) before ->
  is_creation_log log = true ->
  scan_logs (before ++ log :: after) = Some (address log).
Proof.
  intros Hbefore Hlog. induction Hbefore as [| l before Hl _ IH]; cbn.
  - now rewrite Hlog.
  - now rewrite Hl.
Qed.

Lemma scan_logs_no_match (ls : list Log) :
  Forall (fun l => is_creation_log l = false) ls -> scan_logs ls = None.
Proof.
  intros H. induction H as [| l ls Hl _ IH]; cbn; [reflexivity |]. now rewrite Hl.
Qed.

(** [is_creation_log] reads the second topic only. *)
Lemma is_creation_log_spec (log : Log) :
  is_creation_log log = true <-> topics log !! 1%nat = Some ZeroHash.
Proof. unfold is_creation_log. apply bool_decide_eq_true. Qed.

(** [formatEther] succeeds exactly on the values that fit 512 bits. *)
Lemma formatEther_in_range (v : Z) :
  in_range_512 v = true -> exists s, formatEther v = Ok s.
Proof. intros Hr. unfold formatEther, formatUnits. rewrite Hr. eauto. Qed.

Lemma formatEther_overflow (v : Z) :
  in_range_512 v = false -> formatEther v = Err (RangeError "overflow").
Proof. intros Hr. unfold formatEther, formatUnits. now rewrite Hr. Qed.

(** The shipped module, once the fee is read and the amount parsed: the
    two log lines, then the one call. *)
Lemma createTokenOnContract_steps (contracts : string -> MainContract) (NETWORK : Network)
    (tokenInfo : TokenInfo) (isTestnet : bool) (fee v : Z) :
  let mainContract := contracts (contract_address NETWORK isTestnet) in
  creationFee_ mainContract = Ok fee ->
  parseEther (initAmountIn tokenInfo) = Ok v ->
  createTokenOnContract contracts NETWORK tokenInfo isTestnet
  = (_ ← formatEther fee;
     _ ← formatEther (fee + v);
     tx ← createNewToken mainContract (call_args tokenInfo (fee + v));
     await_and_extract tx).
Proof.
  intros mainContract Hfee Hv. unfold createTokenOnContract. fold mainContract.
  rewrite Hfee. cbn [mbind result_bind].
  destruct (formatEther fee) as [s1 |]; [| reflexivity]. cbn [mbind result_bind].
  rewrite Hv. reflexivity.
Qed.

(** The call is made when fee and total fit 512 bits. *)
Lemma createTokenOnContract_sends (contracts : string -> MainContract) (NETWORK : Network)
    (tokenInfo : TokenInfo) (isTestnet : bool) (fee v : Z) :
  let mainContract := contracts (contract_address NETWORK isTestnet) in
  creationFee_ mainContract = Ok fee ->
  parseEther (initAmountIn tokenInfo) = Ok v ->
  in_range_512 fee = true -> in_range_512 (fee + v) = true ->
  createTokenOnContract contracts NETWORK tokenInfo isTestnet
  = (tx ← createNewToken mainContract (call_args tokenInfo (fee + v));
     await_and_extract tx).
Proof.
  intros mainContract Hfee Hv Hrf Hrt.
  rewrite (createTokenOnContract_steps contracts NETWORK tokenInfo isTestnet fee v Hfee Hv).
  destruct (formatEther_in_range fee Hrf) as [s1 ->].
  destruct (formatEther_in_range (fee + v) Hrt) as [s2 ->]. reflexivity.
Qed.

(** The shipped module on a mined receipt: the hash, and the address the
    scan of the receipt's logs gives. *)
Lemma createTokenOnContract_mined (contracts : string -> MainContract) (NETWORK : Network)
    (tokenInfo : TokenInfo) (isTestnet : bool) (fee v : Z) (tx : TransactionResponse)
    (receipt : TransactionReceipt) :
  let mainContract := contracts (contract_address NETWORK isTestnet) in
  creationFee_ mainContract = Ok fee ->
  parseEther (initAmountIn tokenInfo) = Ok v ->
  in_range_512 fee = true -> in_range_512 (fee + v) = true ->
  createNewToken mainContract (call_args tokenInfo (fee + v)) = Ok tx ->
  wait tx = Ok (Some receipt) ->
  createTokenOnContract contracts NETWORK tokenInfo isTestnet
  = Ok {| txHash := hash tx; tokenAddress := scan_logs (logs receipt) |}.
Proof.
  intros mainContract Hfee Hv Hrf Hrt Htx Hwait.
  rewrite (createTokenOnContract_sends contracts NETWORK tokenInfo isTestnet fee v
             Hfee Hv Hrf Hrt).
  fold mainContract. rewrite Htx. cbn [mbind result_bind].
  unfold await_and_extract. rewrite Hwait. reflexivity.
Qed.

(** Address extraction in the shipped module, for every mined receipt:
    the emitting address of the first log whose second topic is the zero
    hash, and no address, without an exception, when no log has it. *)
Lemma createTokenOnContract_extraction (contracts : string -> MainContract) (NETWORK : Network)
    (tokenInfo : TokenInfo) (isTestnet : bool) (fee v : Z) (tx : TransactionResponse)
    (receipt : TransactionReceipt) :
  let mainContract := contracts (contract_address NETWORK isTestnet) in
  creationFee_ mainContract = Ok fee ->
  parseEther (initAmountIn tokenInfo) = Ok v ->
  in_range_512 fee = true -> in_range_512 (fee + v) = true ->
  createNewToken mainContract (call_args tokenInfo (fee + v)) = Ok tx ->
  wait tx = Ok (Some receipt) ->
  (forall before log after,
     logs receipt = before ++ log :: after ->
     Forall (fun l => topics l !! 1%nat <> Some ZeroHash) before ->
     topics log !! 1%nat = Some ZeroHash ->
     createTokenOnContract contracts NETWORK tokenInfo isTestnet
     = Ok {| txHash := hash tx; tokenAddress := Some (address log) |}) /\
  (Forall (fun l => topics l !! 1%nat <> Some ZeroHash) (logs receipt) ->
     createTokenOnContract contracts NETWORK tokenInfo isTestnet
     = Ok {| txHash := hash tx; tokenAddress := None |}).
Proof.
  intros mainContract Hfee Hv Hrf Hrt Htx Hwait.
  rewrite (createTokenOnContract_mined contracts NETWORK tokenInfo isTestnet fee v tx receipt
             Hfee Hv Hrf Hrt Htx Hwait).
  assert (Hno : forall ls, Forall (fun l => topics l !! 1%nat <> Some ZeroHash) ls ->
                           Forall (fun l => is_creation_log l = false) ls).
  { intros ls Hls. eapply Forall_impl; [exact Hls |]. intros l Hl.
    unfold is_creation_log. now apply bool_decide_eq_false. }
  split.
  - intros before log after -> Hbefore Hlog.
    rewrite (scan_logs_first_match before after log); [reflexivity | now apply Hno |].
    now apply is_creation_log_spec.
  - intros Hall. now rewrite (scan_logs_no_match _ (Hno _ Hall)).
Qed.

(** The snippet never extracts an address: it scans the promise. *)
Lemma snippet_tokenAddress_absent (contracts : string -> MainContract)
    (tokenInfo : TokenInfo) (result : LaunchResult) :
  CreateTokenSnippet.createTokenOnContract contracts tokenInfo = Ok result ->
  tokenAddress result = None.
Proof.
  unfold CreateTokenSnippet.createTokenOnContract.
  destruct (creationFee_ _) as [fee |]; cbn; [| discriminate].
  destruct (parseEther _) as [v |]; cbn; [| discriminate].
  destruct (createNewToken _ _) as [tx |]; cbn; [| discriminate].
  now intros [= <-].
Qed.

(** Printing a [bigint] and reading the numeral back gives the same
    integer. *)
Lemma BigInt_of_string_toString (z : Z) : BigInt_of_string (bigint_toString z) = Some z.
Proof.
  unfold BigInt_of_string, bigint_toString.
  rewrite NilZero.isi.
  - cbn. now rewrite DecimalZ.of_to.
  - destruct z as [| q | q]; cbn; try discriminate.
    intros [= H]. now apply (DecimalPos.Unsigned.to_uint_nonnil q).
  - destruct z as [| q | q]; cbn; try discriminate.
    intros [= H]. now apply (DecimalPos.Unsigned.to_uint_nonnil q).
Qed.

End CreateTokenFacts.

(** C5 at the failing input.  On a receipt with three logs, the second
    one with topics [X; ZeroHash] at address 0xAAA, the snippet
    (code snippets/createToken.ts) returns no tokenAddress: it does not
    await [tx.wait()] and scans the promise, which has no logs.  The
    module of token-creation returns 0xAAA on the same receipt. *)
Theorem C5_snippet_scans_unawaited_promise :
  let contracts := fun _ : string => CreateToken.fake_contract 100 CreateToken.test_logs in
  let tokenInfo := CreateToken.test_token "0.1" in
  CreateTokenSnippet.createTokenOnContract contracts tokenInfo
  = Ok {| CreateToken.txHash := "0xhash:100000000000000100";
          CreateToken.tokenAddress := None |} /\
  CreateToken.createTokenOnContract contracts Constants.test_network tokenInfo false
  = Ok {| CreateToken.txHash := "0xhash:100000000000000100";
          CreateToken.tokenAddress := Some "0xAAA" |}.
Proof. vm_compute. split; reflexivity. Qed.

(** C6.  Fee computation: when the contract reports the creation fee
    [fee] and [initAmountIn] parses to [v] base units, the one
    [createNewToken] call that [createTokenOnContract] makes carries, as
    its value, the decimal numeral of fee + v exactly.  The shipped
    module makes the call whenever fee and fee + v fit the 512 bits of
    the two log lines that format them, and throws a RangeError without
    a call otherwise; the snippet, which has no log lines, always makes
    it. *)
Theorem C6_attached_value_is_fee_plus_amount :
  forall (contracts : string -> CreateToken.MainContract) (NETWORK : Constants.Network)
         (tokenInfo : CreateToken.TokenInfo) (isTestnet : bool) (fee v : Z),
    let mainContract := contracts (Constants.contract_address NETWORK isTestnet) in
    let call := CreateToken.call_args tokenInfo (fee + v) in
    CreateToken.creationFee_ mainContract = Ok fee ->
    Ethers.parseEther (CreateToken.initAmountIn tokenInfo) = Ok v ->
    JS.BigInt_of_string (CreateToken.call_value call) = Some (fee + v) /\
    CreateToken.createTokenOnContract contracts NETWORK tokenInfo isTestnet
    = (_ ← Ethers.formatEther fee;
       _ ← Ethers.formatEther (fee + v);
       tx ← CreateToken.createNewToken mainContract call;
       CreateToken.await_and_extract tx) /\
    (Ethers.in_range_512 fee = true -> Ethers.in_range_512 (fee + v) = true ->
     CreateToken.createTokenOnContract contracts NETWORK tokenInfo isTestnet
     = (tx ← CreateToken.createNewToken mainContract call;
        CreateToken.await_and_extract tx)) /\
    (Ethers.in_range_512 fee = false \/ Ethers.in_range_512 (fee + v) = false ->
     exists m,
       CreateToken.createTokenOnContract contracts NETWORK tokenInfo isTestnet
       = Err (JS.RangeError m)) /\
    (forall snippetContract : CreateToken.MainContract,
       CreateToken.creationFee_ snippetContract = Ok fee ->
       CreateTokenSnippet.createTokenOnContract (fun _ => snippetContract) tokenInfo
       = (tx ← CreateToken.createNewToken snippetContract call;
          Ok {| CreateToken.txHash := CreateToken.hash tx;
                CreateToken.tokenAddress :=
                  CreateToken.extract_token_address
                    (CreateToken.PendingPromise (CreateToken.wait tx)) |})).
Proof.
  intros contracts NETWORK tokenInfo isTestnet fee v mainContract call Hfee Hv.
  pose proof (createTokenOnContract_steps contracts NETWORK tokenInfo isTestnet fee v Hfee Hv)
    as Hsteps.
  split; [cbn; apply BigInt_of_string_toString |].
  split; [exact Hsteps |].
  split; [intros Hrf Hrt; now apply createTokenOnContract_sends |].
  split.
  - intros Hout. rewrite Hsteps. exists "overflow".
    destruct (Ethers.in_range_512 fee) eqn:Hrf.
    + destruct Hout as [Hout | Hout]; [discriminate |].
      destruct (formatEther_in_range fee Hrf) as [s1 ->].
      now rewrite (formatEther_overflow (fee + v) Hout).
    + now rewrite (formatEther_overflow fee Hrf).
  - intros snippetContract Hsfee. unfold CreateTokenSnippet.createTokenOnContract.
    rewrite Hsfee. cbn [mbind result_bind]. rewrite Hv. reflexivity.
Qed.

Lemma C6_attached_value_witness :
  let contracts := fun _ : string => CreateToken.fake_contract 100 [] in
  let tokenInfo := CreateToken.test_token "0.0000000000000001" in
  JS.BigInt_of_string (CreateToken.call_value (CreateToken.call_args tokenInfo (100 + 100)))
  = Some (100 + 100) /\
  CreateToken.createTokenOnContract contracts Constants.test_network tokenInfo false
  = (tx ← CreateToken.createNewToken (contracts "") (CreateToken.call_args tokenInfo (100 + 100));
     CreateToken.await_and_extract tx).
Proof.
  intros contracts tokenInfo.
  destruct (C6_attached_value_is_fee_plus_amount contracts Constants.test_network tokenInfo
              false 100 100 eq_refl eq_refl) as (Hnum & _ & Hsend & _).
  split; [exact Hnum | exact (Hsend eq_refl eq_refl)].
Defined.

(** ** Price helper *)

Section PriceFacts.
Import JS GetTokenInfo.

Lemma BigInt_of_nan_or_infinity (x : spec_float) :
  x = S754_nan \/ (exists s, x = S754_infinity s) ->
  BigInt_of_number (Math_floor x)
  = Err (RangeError "The number cannot be converted to a BigInt because it is not an integer").
Proof. intros [-> | [s ->]]; reflexivity. Qed.

(** Dividing by zero gives NaN or an infinity, and so does the product
    with a finite, non-zero factor. *)
Lemma div_by_zero_times_finite (x : spec_float) (s : bool) (m : positive) (e : Z) :
  let price := SFmul SFprec SFemax (SFdiv SFprec SFemax x (S754_zero false))
                 (S754_finite s m e) in
  price = S754_nan \/ exists s', price = S754_infinity s'.
Proof. destruct x as [sx | sx | | sx mx ex]; cbn; eauto. Qed.

End PriceFacts.

(** C8.  For every pool state whose virtualTokenReserve is zero,
    [calculateCurrentPrice] fails: the quotient is NaN or an infinity, and
    its conversion to a bigint throws a RangeError; no price is
    returned. *)
Theorem C8_price_fails_on_zero_reserve :
  forall poolInfo : GetTokenInfo.TokenPoolInfo,
    GetTokenInfo.virtualTokenReserve poolInfo = 0 ->
    GetTokenInfo.calculateCurrentPrice poolInfo
    = Err (JS.RangeError
             "The number cannot be converted to a BigInt because it is not an integer").
Proof.
  intros poolInfo Hzero. unfold GetTokenInfo.calculateCurrentPrice. rewrite Hzero.
  change (JS.Number_of_bigint 0) with (S754_zero false).
  assert (Hc : exists m e, JS.Number_of_bigint (10 ^ 18) = S754_finite false m e)
    by (vm_compute; eauto).
  destruct Hc as (m & e & ->).
  rewrite BigInt_of_nan_or_infinity; [reflexivity |].
  apply div_by_zero_times_finite.
Qed.

Lemma C8_price_fails_witness :
  GetTokenInfo.calculateCurrentPrice
    {| GetTokenInfo.token := "0x024ac9eb"; GetTokenInfo.tokenReserve := 0;
       GetTokenInfo.virtualTokenReserve := 0; GetTokenInfo.ethReserve := 5 * 10 ^ 18;
       GetTokenInfo.virtualEthReserve := 15 * 10 ^ 18; GetTokenInfo.lastPrice := 0;
       GetTokenInfo.lastMcapInEth := 0; GetTokenInfo.lastTimestamp := 0;
       GetTokenInfo.lastBlock := 0; GetTokenInfo.creator := "0xc";
       GetTokenInfo.liquidityManager := "0x0"; GetTokenInfo.poolId := "0x0";
       GetTokenInfo.curveConstant := 0 |}
  = Err (JS.RangeError
           "The number cannot be converted to a BigInt because it is not an integer").
Proof. apply C8_price_fails_on_zero_reserve. reflexivity. Defined.

(* ================================================================= *)
(** * Further properties of the code *)

(** ** Creation-block locator: probes, their number and their failures *)

Section LocatorFacts.
Import JS CreationBlock.

Variables (p : Provider) (addr : string).

(** Every iteration halves the interval at least. *)
Lemma loop_body_halves (r : Result Exception string) (s : LoopState) :
  0 <= lowBlock s <= highBlock s -> highBlock s < 2 ^ 53 ->
  interval_width (loop_body r s) <= interval_width s `div` 2.
Proof.
  intros H Hs. pose proof (midBlock_safe s H Hs) as Hm.
  rewrite (loop_body_safe r s H Hs). unfold interval_width.
  rewrite (Z.max_r 0 (highBlock s - lowBlock s + 1)) by lia.
  destruct r as [c | e]; [destruct (String.eqb c "0x") | ]; cbn;
    (apply Z.max_lub; [apply Z.div_pos; lia | apply Z.div_le_lower_bound; lia]).
Qed.

Lemma while_loop_log :
  forall (fuel calls : nat) (s : LoopState),
    0 <= lowBlock s -> highBlock s < 2 ^ 53 ->
    interval_width s < 2 ^ Z.of_nat fuel ->
    exists s', while_loop fuel p addr calls s = Some s' /\ loop_cond s' = false.
Proof.
  induction fuel as [| fuel IH]; intros calls s Hlo Hhi Hw; cbn [while_loop];
    destruct (loop_cond s) eqn:Hc; eauto; loop_cond_prop Hc.
  - unfold interval_width in Hw. cbn in Hw. lia.
  - pose proof (loop_body_halves (getCode p calls addr (Some (midBlock s))) s
                  ltac:(lia) Hhi) as Hh.
    pose proof (loop_body_keeps_safe (getCode p calls addr (Some (midBlock s))) s
                  ltac:(lia) Hhi) as [Hlo' Hhi'].
    apply IH; [exact Hlo' | exact Hhi' |].
    rewrite Nat2Z.inj_succ, Z.pow_succ_r in Hw by lia.
    assert (interval_width s `div` 2 < 2 ^ Z.of_nat fuel)
      by (apply Z.div_lt_upper_bound; lia).
    lia.
Qed.

(** Blocks the loop can record: inside [0 .. latestBlock], and probed with
    an answer that was code. *)
Variable latestBlock : Z.

Let probed_with_code (b : Z) : Prop :=
  0 <= b <= latestBlock /\
  exists (calls : nat) (code : string),
    getCode p calls addr (Some b) = Ok code /\ String.eqb code "0x" = false.

Lemma while_loop_found :
  forall (fuel calls : nat) (s s' : LoopState),
    0 <= lowBlock s -> representable (lowBlock s) -> highBlock s <= latestBlock ->
    (forall b, foundBlock s = Some b -> probed_with_code b) ->
    while_loop fuel p addr calls s = Some s' ->
    forall b, foundBlock s' = Some b -> probed_with_code b.
Proof.
  induction fuel as [| fuel IH]; intros calls s s' Hlo Hrep Hhi Hf; cbn [while_loop];
    destruct (loop_cond s) eqn:Hc; try discriminate;
    try (intros [= <-]; exact Hf).
  loop_cond_prop Hc.
  pose proof (midBlock_bounds s ltac:(lia) Hrep) as Hmid.
  pose proof (midBlock_representable s ltac:(lia)) as Hmrep.
  assert (Hup : 0 <= number_add (midBlock s) 1 /\ representable (number_add (midBlock s) 1)).
  { unfold number_add. rewrite to_double_nonneg by lia.
    split; [apply round_nonneg_nonneg | apply round_nonneg_representable]; lia. }
  assert (Hdown : number_sub (midBlock s) 1 <= latestBlock).
  { pose proof (to_double_pred_le (midBlock s) ltac:(lia) Hmrep). unfold number_sub. lia. }
  apply IH; unfold loop_body;
    destruct (getCode p calls addr (Some (midBlock s))) as [code | e] eqn:Hprobe;
    try destruct (String.eqb code "0x") eqn:Hcode;
    cbn [lowBlock highBlock foundBlock]; try tauto; try lia; try exact Hf.
  intros b [= <-]. split; [lia |]. eauto.
Qed.

Lemma findTokenCreationBlock_found (fuel : nat) (b : Z) :
  getBlockNumber p = Ok latestBlock ->
  findTokenCreationBlock fuel p addr = Some (Ok b) ->
  probed_with_code b.
Proof.
  intros Hbn. unfold findTokenCreationBlock.
  destruct (getCode p 0%nat addr None) as [code | e]; [| discriminate].
  destruct (String.eqb code "0x"); [discriminate |]. rewrite Hbn.
  destruct (while_loop fuel p addr 1%nat (initial latestBlock)) as [s' |] eqn:Hrun;
    [| discriminate].
  destruct (foundBlock s') as [b' |] eqn:Hfound; [| discriminate].
  intros [= <-].
  apply (while_loop_found fuel 1%nat (initial latestBlock) s'); cbn; try lia; try assumption.
  - reflexivity.
  - discriminate.
Qed.

(** While no probe reports code, nothing is recorded. *)
Lemma while_loop_nothing_found :
  (forall (calls : nat) (b : Z),
     getCode p calls addr (Some b) = Ok "0x" \/ exists e, getCode p calls addr (Some b) = Err e) ->
  forall (fuel calls : nat) (s s' : LoopState),
    foundBlock s = None ->
    while_loop fuel p addr calls s = Some s' -> foundBlock s' = None.
Proof.
  intros Hnone. induction fuel as [| fuel IH]; intros calls s s' Hf; cbn [while_loop];
    destruct (loop_cond s); try discriminate; try (now intros [= <-]).
  apply IH. unfold loop_body.
  destruct (Hnone calls (midBlock s)) as [-> | [e ->]]; exact Hf.
Qed.

End LocatorFacts.

(** X1.  On a chain whose head is below 2^53, the locator's loop makes at
    most log2(latestBlock + 1) + 1 probes: with that many iterations
    [findTokenCreationBlock] has returned or thrown, whatever the provider
    answers. *)
Theorem X1_locator_logarithmic_probes :
  forall (p : CreationBlock.Provider) (addr : string) (latestBlock : Z),
    CreationBlock.getBlockNumber p = Ok latestBlock ->
    0 <= latestBlock < 2 ^ 53 ->
    exists r,
      CreationBlock.findTokenCreationBlock
        (Z.to_nat (Z.log2 (latestBlock + 1)) + 1) p addr = Some r.
Proof.
  intros p addr latestBlock Hbn Hl. unfold CreationBlock.findTokenCreationBlock.
  destruct (CreationBlock.getCode p 0%nat addr None) as [code | e]; [| eauto].
  destruct (String.eqb code "0x"); [eauto |]. rewrite Hbn.
  destruct (while_loop_log p addr (Z.to_nat (Z.log2 (latestBlock + 1)) + 1) 1%nat
              (CreationBlock.initial latestBlock)) as (s' & -> & _).
  - cbn. lia.
  - cbn. lia.
  - unfold CreationBlock.interval_width, CreationBlock.initial; cbn.
    pose proof (Z.log2_spec (latestBlock + 1) ltac:(lia)) as [_ Hup].
    pose proof (Z.log2_nonneg (latestBlock + 1)).
    rewrite Nat2Z.inj_add, Z2Nat.id by lia.
    change (Z.of_nat 1) with 1. rewrite <- Z.add_1_r in Hup. lia.
  - destruct (CreationBlock.foundBlock s'); eauto.
Qed.

Lemma X1_locator_logarithmic_witness :
  exists r,
    CreationBlock.findTokenCreationBlock
      (Z.to_nat (Z.log2 (1000000 + 1)) + 1) (CreationBlock.flaky_provider 1000000) "0x024ac9eb"
    = Some r.
Proof.
  apply (X1_locator_logarithmic_probes (CreationBlock.flaky_provider 1000000) "0x024ac9eb" 1000000);
    [reflexivity | lia].
Defined.

(** X2.  Whatever the probes answer, a block that [findTokenCreationBlock]
    returns lies in [0 .. latestBlock] and is one at which a probe
    answered with code. *)
Theorem X2_locator_result_was_probed :
  forall (p : CreationBlock.Provider) (addr : string) (latestBlock b : Z) (fuel : nat),
    CreationBlock.getBlockNumber p = Ok latestBlock ->
    CreationBlock.findTokenCreationBlock fuel p addr = Some (Ok b) ->
    0 <= b <= latestBlock /\
    exists (calls : nat) (code : string),
      CreationBlock.getCode p calls addr (Some b) = Ok code /\ code <> "0x".
Proof.
  intros p addr latestBlock b fuel Hbn Hres.
  destruct (findTokenCreationBlock_found p addr latestBlock fuel b Hbn Hres)
    as (Hb & calls & code & Hprobe & Hcode).
  split; [exact Hb |]. exists calls, code. split; [exact Hprobe |].
  intros ->. discriminate.
Qed.

Lemma X2_locator_result_witness :
  0 <= 18 <= 20 /\
  exists (calls : nat) (code : string),
    CreationBlock.getCode (CreationBlock.flaky_provider 20) calls "0x024ac9eb" (Some 18) = Ok code /\
    code <> "0x".
Proof.
  apply (X2_locator_result_was_probed (CreationBlock.flaky_provider 20) "0x024ac9eb" 20 18 21);
    reflexivity.
Defined.

(** X3.  Conservative bias: when every probe either throws or answers
    truthfully for a contract created at block K, a block that
    [findTokenCreationBlock] returns is never earlier than K. *)
Theorem X3_locator_never_before_creation :
  forall (p : CreationBlock.Provider) (addr : string) (latestBlock K b : Z)
         (hasCode : Z -> bool) (fuel : nat),
    CreationBlock.getBlockNumber p = Ok latestBlock ->
    (forall (calls : nat) (blk : Z) (code : string),
       CreationBlock.getCode p calls addr (Some blk) = Ok code ->
       String.eqb code "0x" = negb (hasCode blk)) ->
    (forall blk, 0 <= blk < K -> hasCode blk = false) ->
    CreationBlock.findTokenCreationBlock fuel p addr = Some (Ok b) ->
    K <= b <= latestBlock.
Proof.
  intros p addr latestBlock K b hasCode fuel Hbn Htruth Hbelow Hres.
  destruct (findTokenCreationBlock_found p addr latestBlock fuel b Hbn Hres)
    as (Hb & calls & code & Hprobe & Hcode).
  split; [| lia].
  destruct (Z_lt_le_dec b K) as [Hlt | Hge]; [| exact Hge].
  rewrite (Htruth calls b code Hprobe), (Hbelow b) in Hcode by lia. discriminate.
Qed.

Lemma X3_locator_never_before_witness :
  637 <= 643 <= 1000.
Proof.
  apply (X3_locator_never_before_creation
           (LocatorBackends.unreliable_provider (fun b => 637 <=? b) 1000) "0x024ac9eb"
           1000 637 643 (fun b => 637 <=? b) 1001).
  - reflexivity.
  - intros calls blk code.
    unfold LocatorBackends.unreliable_provider, CreationBlock.getCode.
    destruct (Nat.modulo calls 3); [discriminate |].
    intros [= <-]. now destruct (637 <=? blk).
  - intros blk Hblk. apply Z.leb_gt. lia.
  - vm_compute. reflexivity.
Defined.

(** X4.  On a chain whose head is below 2^53, when the address has code
    at the latest block but every probe at a block number throws or
    reports none (a node without historical state),
    [findTokenCreationBlock] throws "Could not determine creation
    block". *)
Theorem X4_locator_without_history :
  forall (p : CreationBlock.Provider) (addr code : string) (latestBlock : Z) (fuel : nat),
    CreationBlock.getCode p 0%nat addr None = Ok code -> code <> "0x" ->
    CreationBlock.getBlockNumber p = Ok latestBlock ->
    latestBlock < 2 ^ 53 ->
    (forall (calls : nat) (b : Z),
       CreationBlock.getCode p calls addr (Some b) = Ok "0x" \/
       exists e, CreationBlock.getCode p calls addr (Some b) = Err e) ->
    (CreationBlock.enough_fuel latestBlock <= fuel)%nat ->
    CreationBlock.findTokenCreationBlock fuel p addr
    = Some (Err (JS.Error "Could not determine creation block")).
Proof.
  intros p addr code latestBlock fuel Hcode Hne Hbn Hsafe Hnone Hfuel.
  unfold CreationBlock.findTokenCreationBlock. rewrite Hcode.
  destruct (String.eqb_spec code "0x") as [-> | _]; [congruence |]. rewrite Hbn.
  destruct (while_loop_total p addr fuel 1%nat (CreationBlock.initial latestBlock))
    as (s' & Hrun & _).
  - cbn. lia.
  - exact Hsafe.
  - unfold CreationBlock.enough_fuel in Hfuel.
    unfold CreationBlock.interval_width, CreationBlock.initial; cbn. lia.
  - rewrite Hrun.
    now rewrite (while_loop_nothing_found p addr Hnone fuel 1%nat
                   (CreationBlock.initial latestBlock) s' eq_refl Hrun).
Qed.

Lemma X4_locator_without_history_witness :
  CreationBlock.findTokenCreationBlock 101 (LocatorBackends.stateless_provider 100) "0x024ac9eb"
  = Some (Err (JS.Error "Could not determine creation block")).
Proof.
  apply (X4_locator_without_history (LocatorBackends.stateless_provider 100) "0x024ac9eb"
           "0x6080604052" 100 101).
  - reflexivity.
  - discriminate.
  - reflexivity.
  - lia.
  - intros calls b. right. eexists. reflexivity.
  - vm_compute. lia.
Defined.

(** ** Error classifiers: what they return and when *)

Section ClassifierFacts.
Import JS ErrorHandling.

(** [parseBlockchainError] returns only when the message is a text. *)
Lemma parseBlockchainError_ok_text (error : JSValue) (e : TokenCreationError) :
  parseBlockchainError error = Ok e -> exists m, raw_message error = JSStr m.
Proof.
  unfold parseBlockchainError.
  destruct (raw_message error) as [| | b | n | m | fields]; cbn; try discriminate. eauto.
Qed.

(** A falsy status counts as 0. *)
Lemma status_falsy (error : JSValue) :
  truthy (opt_get error "status") = false ->
  or_value (opt_get error "status") (JSNum 0) = JSNum 0.
Proof. intros H. unfold or_value. now rewrite H. Qed.

End ClassifierFacts.

(** The kinds each classifier can return, and the cause it keeps. *)
Lemma classifiers_range :
  forall (error : JS.JSValue) (e : ErrorHandling.TokenCreationError),
    (ErrorHandling.parseBlockchainError error = Ok e ->
     ErrorHandling.originalError e = error /\
     In (ErrorHandling.type e)
        [ErrorHandling.INSUFFICIENT_FUNDS; ErrorHandling.USER_REJECTED;
         ErrorHandling.NETWORK_ERROR; ErrorHandling.CONTRACT_ERROR;
         ErrorHandling.UNKNOWN_ERROR]) /\
    (ErrorHandling.parseUploadError error = Ok e ->
     ErrorHandling.originalError e = error /\
     In (ErrorHandling.type e)
        [ErrorHandling.AUTHENTICATION_ERROR; ErrorHandling.UPLOAD_FAILED;
         ErrorHandling.NETWORK_ERROR]).
Proof.
  intros error e. split.
  - intros Hok. destruct (parseBlockchainError_ok_text error e Hok) as [m Hm].
    rewrite (parseBlockchainError_text error m Hm) in Hok.
    repeat match type of Hok with
           | context [if ?b then _ else _] => destruct b
           end;
      injection Hok as <-; cbn; tauto.
  - unfold ErrorHandling.parseUploadError, JS.or_lazy, JS.call_includes.
    generalize (JS.or_value (JS.opt_get error "status") (JS.JSNum 0)). intros status.
    destruct (JS.strict_eq_num status 401), (JS.strict_eq_num status 403),
      (JS.strict_eq_num status 413), (JS.strict_eq_num status 0), (JS.ge_num status 500),
      (ErrorHandling.raw_message error) as [| | b | n | m | fields];
      cbn; try discriminate;
      repeat match goal with
             | |- context [JS.includes m ?pat] => destruct (JS.includes m pat); cbn
             end;
      intros [= <-]; cbn; tauto.
Qed.

(** X5.  Both classifiers keep the raw error as [originalError].
    [parseBlockchainError] returns one of INSUFFICIENT_FUNDS,
    USER_REJECTED, NETWORK_ERROR, CONTRACT_ERROR and UNKNOWN_ERROR, and
    [parseUploadError] one of AUTHENTICATION_ERROR, UPLOAD_FAILED and
    NETWORK_ERROR: neither ever returns TRANSACTION_FAILED. *)
Theorem X5_classifiers_range :
  forall (error : JS.JSValue) (e : ErrorHandling.TokenCreationError),
    (ErrorHandling.parseBlockchainError error = Ok e ->
     ErrorHandling.originalError e = error /\
     In (ErrorHandling.type e)
        [ErrorHandling.INSUFFICIENT_FUNDS; ErrorHandling.USER_REJECTED;
         ErrorHandling.NETWORK_ERROR; ErrorHandling.CONTRACT_ERROR;
         ErrorHandling.UNKNOWN_ERROR]) /\
    (ErrorHandling.parseUploadError error = Ok e ->
     ErrorHandling.originalError e = error /\
     In (ErrorHandling.type e)
        [ErrorHandling.AUTHENTICATION_ERROR; ErrorHandling.UPLOAD_FAILED;
         ErrorHandling.NETWORK_ERROR]).
Proof. exact classifiers_range. Qed.

Lemma X5_classifiers_range_witness :
  let error : JS.JSValue := JS.JSObj {[ "message" := JS.JSStr "execution reverted" ]} in
  let e := {| ErrorHandling.type := ErrorHandling.UNKNOWN_ERROR;
              ErrorHandling.message := "An unexpected error occurred: execution reverted";
              ErrorHandling.originalError := error |} in
  ErrorHandling.originalError e = error /\
  In (ErrorHandling.type e)
     [ErrorHandling.INSUFFICIENT_FUNDS; ErrorHandling.USER_REJECTED;
      ErrorHandling.NETWORK_ERROR; ErrorHandling.CONTRACT_ERROR;
      ErrorHandling.UNKNOWN_ERROR].
Proof.
  intros error e. apply (proj1 (X5_classifiers_range error e)). reflexivity.
Defined.

(** X6.  An upload error with status 401 or 403 is AUTHENTICATION_ERROR
    whatever its message is, a message that is not a text included: the
    message is not looked at. *)
Theorem X6_upload_auth_status_first :
  forall error : JS.JSValue,
    JS.opt_get error "status" = JS.JSNum 401 \/ JS.opt_get error "status" = JS.JSNum 403 ->
    ErrorHandling.parseUploadError error
    = Ok {| ErrorHandling.type := ErrorHandling.AUTHENTICATION_ERROR;
            ErrorHandling.message :=
              "Authentication failed. Please make sure you are logged in to tama.meme.";
            ErrorHandling.originalError := error |}.
Proof.
  intros error [Hs | Hs]; unfold ErrorHandling.parseUploadError; rewrite Hs; reflexivity.
Qed.

Lemma X6_upload_auth_status_witness :
  let error : JS.JSValue := JS.JSObj {[ "status" := JS.JSNum 403; "message" := JS.JSNum 42 ]} in
  ErrorHandling.parseUploadError error
  = Ok {| ErrorHandling.type := ErrorHandling.AUTHENTICATION_ERROR;
          ErrorHandling.message :=
            "Authentication failed. Please make sure you are logged in to tama.meme.";
          ErrorHandling.originalError := error |}.
Proof.
  intros error. apply (X6_upload_auth_status_first error). right. reflexivity.
Defined.

(** X7.  An upload error without a status (absent or falsy) and with a
    text message never reaches the generic "Failed to upload image"
    answer: it is AUTHENTICATION_ERROR when the message contains
    "unauthorized", else the too-large UPLOAD_FAILED when it contains
    "too large", else NETWORK_ERROR. *)
Theorem X7_upload_error_without_status :
  forall (error : JS.JSValue) (m : string),
    JS.truthy (JS.opt_get error "status") = false ->
    ErrorHandling.raw_message error = JS.JSStr m ->
    exists e,
      ErrorHandling.parseUploadError error = Ok e /\
      ErrorHandling.type e =
        (if JS.includes m "unauthorized" then ErrorHandling.AUTHENTICATION_ERROR
         else if JS.includes m "too large" then ErrorHandling.UPLOAD_FAILED
         else ErrorHandling.NETWORK_ERROR) /\
      ErrorHandling.message e <> "Failed to upload image: " +:+ m.
Proof.
  intros error m Hs Hm. unfold ErrorHandling.parseUploadError.
  rewrite (status_falsy error Hs), Hm. cbn.
  destruct (JS.includes m "unauthorized"); cbn;
    [| destruct (JS.includes m "too large"); cbn;
       [| destruct (JS.includes m "network"); cbn]];
    (eexists; split; [reflexivity |]; split; [reflexivity |]);
    cbn; intros H; vm_compute in H; discriminate.
Qed.

Lemma X7_upload_error_without_status_witness :
  exists e,
    ErrorHandling.parseUploadError (JS.JSObj {[ "message" := JS.JSStr "Failed to fetch" ]}) = Ok e /\
    ErrorHandling.type e =
      (if JS.includes "Failed to fetch" "unauthorized" then ErrorHandling.AUTHENTICATION_ERROR
       else if JS.includes "Failed to fetch" "too large" then ErrorHandling.UPLOAD_FAILED
       else ErrorHandling.NETWORK_ERROR) /\
    ErrorHandling.message e <> "Failed to upload image: " +:+ "Failed to fetch".
Proof.
  apply (X7_upload_error_without_status
           (JS.JSObj {[ "message" := JS.JSStr "Failed to fetch" ]}) "Failed to fetch");
    reflexivity.
Defined.

(** X8.  For a raw error with a text message, [parseBlockchainError]
    answers UNKNOWN_ERROR exactly when the message contains none of the
    eight substrings its rules look for. *)
Theorem X8_unknown_iff_no_rule :
  forall (error : JS.JSValue) (m : string),
    ErrorHandling.raw_message error = JS.JSStr m ->
    (ErrorHandling.type <$> ErrorHandling.parseBlockchainError error
       = Ok ErrorHandling.UNKNOWN_ERROR
     <-> ErrorHandling.matches_no_rule m).
Proof.
  intros error m Hm. rewrite (parseBlockchainError_text error m Hm).
  unfold ErrorHandling.matches_no_rule, ErrorHandling.blockchain_patterns.
  rewrite !Forall_cons, Forall_nil.
  destruct (JS.includes m "insufficient funds"), (JS.includes m "user rejected"),
    (JS.includes m "User denied"), (JS.includes m "network"), (JS.includes m "timeout"),
    (JS.includes m "InsufficientOutput"), (JS.includes m "InvalidAmountIn"),
    (JS.includes m "InvalidTokenMetadata"); cbn;
    (split; [intros H; try discriminate H; tauto | intros H; try reflexivity;
             exfalso; intuition discriminate]).
Qed.

Lemma X8_unknown_iff_no_rule_witness :
  ErrorHandling.type <$> ErrorHandling.parseBlockchainError
    (JS.JSObj {[ "message" := JS.JSStr "nonce too low" ]}) = Ok ErrorHandling.UNKNOWN_ERROR
  <-> ErrorHandling.matches_no_rule "nonce too low".
Proof.
  apply (X8_unknown_iff_no_rule (JS.JSObj {[ "message" := JS.JSStr "nonce too low" ]})
           "nonce too low").
  reflexivity.
Defined.

(** ** Creation-event lookup and the 500-block limit *)

Section LookupFacts.
Import JS Constants GetTokenInfo.




End LookupFacts.








(** ** The combined read *)

Section CompleteInfoFacts.
Import JS Ethers Constants GetTokenInfo TokenInfoReads.

(** [getTokenPoolInfo] hands the pool on as it was read. *)
Lemma getTokenPoolInfo_read (pools_ : PoolReader) (NETWORK : Network)
    (tokenAddress : string) (isTestnet : bool) :
  getTokenPoolInfo pools_ NETWORK tokenAddress isTestnet
  = pools_ (contract_address NETWORK isTestnet) tokenAddress.
Proof.
  unfold getTokenPoolInfo.
  destruct (pools_ _ _) as [[] | e]; reflexivity.
Qed.

(** A [uint256] is formatted without an exception. *)
Lemma formatEther_uint256 (v : Z) :
  0 <= v < 2 ^ 256 -> exists s, formatEther v = Ok s.
Proof.
  intros Hv. unfold formatEther, formatUnits.
  assert (Hr : in_range_512 v = true).
  { apply in_range_512_spec.
    assert (2 ^ 256 < 2 ^ 511) by (apply Z.pow_lt_mono_r; lia).
    assert (0 < 2 ^ 511) by (apply Z.pow_pos_nonneg; lia). lia. }
  rewrite Hr. eauto.
Qed.

End CompleteInfoFacts.

(** X13.  [getCompleteTokenInfo] reads the pool first and issues no event
    query when that read fails.  When the pool is read and its lastPrice
    and lastMcapInEth are uint256 values, the outcome is that of
    [getTokenMetadata], with the pool as read and the two formatted
    figures added on success: the function returns both parts or
    throws. *)
Theorem X13_complete_info_all_or_nothing :
  forall (chain : GetTokenInfo.Chain) (pools_ : TokenInfoReads.PoolReader)
         (NETWORK : Constants.Network) (tokenAddress : string) (isTestnet : bool),
    (forall e,
       pools_ (Constants.contract_address NETWORK isTestnet) tokenAddress = Err e ->
       TokenInfoReads.getCompleteTokenInfo chain pools_ NETWORK tokenAddress isTestnet
       = ([], Err e)) /\
    (forall pool,
       pools_ (Constants.contract_address NETWORK isTestnet) tokenAddress = Ok pool ->
       0 <= GetTokenInfo.lastPrice pool < 2 ^ 256 ->
       0 <= GetTokenInfo.lastMcapInEth pool < 2 ^ 256 ->
       exists price mcap,
         Ethers.formatEther (GetTokenInfo.lastPrice pool) = Ok price /\
         Ethers.formatEther (GetTokenInfo.lastMcapInEth pool) = Ok mcap /\
         TokenInfoReads.getCompleteTokenInfo chain pools_ NETWORK tokenAddress isTestnet
         = ((GetTokenInfo.getTokenMetadata chain NETWORK tokenAddress isTestnet).1,
            (fun md => {| TokenInfoReads.poolInfo := pool;
                          TokenInfoReads.metadata := md;
                          TokenInfoReads.formattedPrice := price;
                          TokenInfoReads.formattedMarketCap := mcap |})
            <$> (GetTokenInfo.getTokenMetadata chain NETWORK tokenAddress isTestnet).2)).
Proof.
  intros chain pools_ NETWORK tokenAddress isTestnet. split.
  - intros e He. unfold TokenInfoReads.getCompleteTokenInfo.
    now rewrite getTokenPoolInfo_read, He.
  - intros pool Hpool Hprice Hmcap.
    destruct (formatEther_uint256 _ Hprice) as [price Hp].
    destruct (formatEther_uint256 _ Hmcap) as [mcap Hm].
    exists price, mcap. repeat split; [exact Hp | exact Hm |].
    unfold TokenInfoReads.getCompleteTokenInfo.
    rewrite getTokenPoolInfo_read, Hpool.
    destruct (GetTokenInfo.getTokenMetadata chain NETWORK tokenAddress isTestnet)
      as [issued [md | e]]; cbn; [| reflexivity].
    unfold TokenInfoReads.format_info. rewrite Hp, Hm. reflexivity.
Qed.

Lemma X13_complete_info_witness :
  TokenInfoReads.getCompleteTokenInfo
    (GetTokenInfo.fake_chain None 100 [GetTokenInfo.creation_event 50 "0xT" "Mochi Inu"])
    (fun _ _ => Err (JS.Error "call revert exception")) SharedConstants.NETWORK "0xT" false
  = ([], Err (JS.Error "call revert exception")).
Proof.
  apply (proj1 (X13_complete_info_all_or_nothing
                  (GetTokenInfo.fake_chain None 100 [GetTokenInfo.creation_event 50 "0xT" "Mochi Inu"])
                  (fun _ _ => Err (JS.Error "call revert exception"))
                  SharedConstants.NETWORK "0xT" false)).
  reflexivity.
Defined.

(** X14.  The script of test-token-info-optimized.ts does not use the
    creation block it looks up: whenever the locator returns a block,
    whichever it is, [getCompleteTokenInfoOptimized] issues the queries
    and gives the outcome of the shipped [getCompleteTokenInfo]. *)
Theorem X14_optimized_ignores_creation_block :
  forall (fuel : nat) (provider : CreationBlock.Provider) (chain : GetTokenInfo.Chain)
         (pools_ : TokenInfoReads.PoolReader) (NETWORK : Constants.Network)
         (tokenAddress : string) (isTestnet : bool) (creationBlock : Z),
    CreationBlock.findTokenCreationBlock fuel provider tokenAddress = Some (Ok creationBlock) ->
    TokenInfoReads.getCompleteTokenInfoOptimized fuel provider chain pools_ NETWORK
      tokenAddress isTestnet
    = Some (TokenInfoReads.getCompleteTokenInfo chain pools_ NETWORK tokenAddress isTestnet).
Proof.
  intros fuel provider chain pools_ NETWORK tokenAddress isTestnet creationBlock Hfind.
  unfold TokenInfoReads.getCompleteTokenInfoOptimized, TokenInfoReads.getCompleteTokenInfo.
  rewrite Hfind.
  destruct (TokenInfoReads.getTokenPoolInfo pools_ NETWORK tokenAddress isTestnet);
    [| reflexivity].
  now destruct (GetTokenInfo.getTokenMetadata chain NETWORK tokenAddress isTestnet).
Qed.

Lemma X14_optimized_witness :
  TokenInfoReads.getCompleteTokenInfoOptimized 2001
    (CreationBlock.oracle_provider (fun b => 1990 <=? b) 2000)
    (GetTokenInfo.fake_chain (Some 500) 2000 [GetTokenInfo.creation_event 1990 "0xT" "Mochi Inu"])
    (fun _ _ => Ok (TokenInfoReads.test_pool 15000000000 (15 * 10 ^ 18)))
    SharedConstants.NETWORK "0xT" false
  = Some (TokenInfoReads.getCompleteTokenInfo
            (GetTokenInfo.fake_chain (Some 500) 2000 [GetTokenInfo.creation_event 1990 "0xT" "Mochi Inu"])
            (fun _ _ => Ok (TokenInfoReads.test_pool 15000000000 (15 * 10 ^ 18)))
            SharedConstants.NETWORK "0xT" false).
Proof.
  apply (X14_optimized_ignores_creation_block 2001 _ _ _ _ _ _ 1990).
  vm_compute. reflexivity.
Defined.

(** ** Image upload *)

Section UploadFacts.
Import JS ErrorHandling UploadImage.

Lemma lower_ascii_idempotent (c : ascii) : lower_ascii (lower_ascii c) = lower_ascii c.
Proof. destruct c as [[] [] [] [] [] [] [] []]; reflexivity. Qed.

Lemma toLowerCase_idempotent (s : string) : toLowerCase (toLowerCase s) = toLowerCase s.
Proof.
  induction s as [| c s IH]; cbn [toLowerCase]; [reflexivity |].
  now rewrite lower_ascii_idempotent, IH.
Qed.

(** Every refusal of [validateImageFile] is an UPLOAD_FAILED without a
    cause. *)
Lemma validateImageFile_refusal (MAX_IMAGE_SIZE : Z) (imageFile : option File)
    (e : TokenCreationError) :
  validateImageFile MAX_IMAGE_SIZE imageFile = Err e ->
  type e = UPLOAD_FAILED /\ originalError e = JSNull.
Proof.
  unfold validateImageFile. destruct imageFile as [file |].
  - destruct (MAX_IMAGE_SIZE <? file_size file); [now intros [= <-] |].
    destruct (String.prefix "image/" (toLowerCase (file_type file)));
      cbn; [discriminate | now intros [= <-]].
  - now intros [= <-].
Qed.

(** What the [try] block throws as classified is UPLOAD_FAILED. *)
Lemma try_upload_classified (MAX_IMAGE_SIZE : Z) (fetch : option File -> Result JSValue Response)
    (imageFile : option File) (e : TokenCreationError) :
  try_upload MAX_IMAGE_SIZE fetch imageFile = Err (CaughtClassified e) ->
  type e = UPLOAD_FAILED.
Proof.
  unfold try_upload.
  destruct (validateImageFile MAX_IMAGE_SIZE imageFile) as [[] | e0] eqn:Hv.
  - destruct (fetch imageFile) as [response | raw]; [| discriminate].
    destruct (ok response); cbn; [| now intros [= <-]].
    destruct (json response) as [data | raw]; [| discriminate].
    destruct (imageUrl data) as [url |]; [| now intros [= <-]].
    destruct (String.eqb url ""); [now intros [= <-] | discriminate].
  - intros [= <-]. now apply (validateImageFile_refusal _ _ _ Hv).
Qed.

End UploadFacts.

(** X15.  [validateImageFile] accepts a file exactly when its size does
    not exceed the limit and its type, letter case put aside, starts with
    "image/"; the outcome, the message included, is the same for a type
    and for its lower-case form. *)
Theorem X15_validate_image_file :
  forall (MAX_IMAGE_SIZE : Z) (file : UploadImage.File),
    (UploadImage.validateImageFile MAX_IMAGE_SIZE (Some file) = Ok () <->
     UploadImage.file_size file <= MAX_IMAGE_SIZE /\
     String.prefix "image/" (UploadImage.toLowerCase (UploadImage.file_type file)) = true) /\
    UploadImage.validateImageFile MAX_IMAGE_SIZE (Some file)
    = UploadImage.validateImageFile MAX_IMAGE_SIZE
        (Some {| UploadImage.file_size := UploadImage.file_size file;
                 UploadImage.file_type := UploadImage.toLowerCase (UploadImage.file_type file) |}).
Proof.
  intros MAX_IMAGE_SIZE file. split.
  - unfold UploadImage.validateImageFile.
    destruct (MAX_IMAGE_SIZE <? UploadImage.file_size file) eqn:Hsize.
    + apply Z.ltb_lt in Hsize. split; [discriminate | lia].
    + apply Z.ltb_ge in Hsize.
      destruct (String.prefix "image/" _); cbn; split; intros H;
        try discriminate; try reflexivity; try (split; [lia | reflexivity]).
      destruct H as [_ H]. discriminate.
  - unfold UploadImage.validateImageFile. cbn [UploadImage.file_size UploadImage.file_type].
    now rewrite toLowerCase_idempotent.
Qed.

(** X16.  An answer of the upload API that is not ok, whatever its
    status, makes [uploadImageToIPFS] throw UPLOAD_FAILED with the status,
    the status text and the body in its message: [parseUploadError] is
    not applied to it, so that a 401 answer is not
    AUTHENTICATION_ERROR. *)
Theorem X16_upload_refusal_is_upload_failed :
  forall (MAX_IMAGE_SIZE : Z)
         (fetch : option UploadImage.File -> Result JS.JSValue UploadImage.Response)
         (imageFile : option UploadImage.File) (response : UploadImage.Response) (body : string),
    UploadImage.validateImageFile MAX_IMAGE_SIZE imageFile = Ok () ->
    fetch imageFile = Ok response ->
    UploadImage.ok response = false ->
    UploadImage.text response = Ok body ->
    UploadImage.uploadImageToIPFS MAX_IMAGE_SIZE fetch imageFile
    = Err (UploadImage.Classified
             {| ErrorHandling.type := ErrorHandling.UPLOAD_FAILED;
                ErrorHandling.message :=
                  "Upload failed: " +:+ JS.bigint_toString (UploadImage.status response) +:+ " " +:+
                  UploadImage.statusText response +:+ ". " +:+ body;
                ErrorHandling.originalError := UploadImage.response_value response |}) /\
    (UploadImage.status response = 401 ->
     ErrorHandling.type <$> ErrorHandling.parseUploadError (UploadImage.response_value response)
     = Ok ErrorHandling.AUTHENTICATION_ERROR).
Proof.
  intros MAX_IMAGE_SIZE fetch imageFile response body Hv Hf Hok Hbody. split.
  - unfold UploadImage.uploadImageToIPFS, UploadImage.try_upload.
    rewrite Hv, Hf, Hok, Hbody. reflexivity.
  - intros Hs. unfold UploadImage.response_value. rewrite Hs.
    unfold ErrorHandling.parseUploadError. reflexivity.
Qed.

Lemma X16_upload_refusal_witness :
  UploadImage.uploadImageToIPFS SharedConstants.MAX_IMAGE_SIZE
    (fun _ => Ok (UploadImage.refusal 401 "Unauthorized" "please log in"))
    CreateTokenWithImage.test_image
  = Err (UploadImage.Classified
           {| ErrorHandling.type := ErrorHandling.UPLOAD_FAILED;
              ErrorHandling.message :=
                "Upload failed: " +:+ JS.bigint_toString 401 +:+ " " +:+
                "Unauthorized" +:+ ". " +:+ "please log in";
              ErrorHandling.originalError :=
                UploadImage.response_value (UploadImage.refusal 401 "Unauthorized" "please log in") |}).
Proof.
  apply (proj1 (X16_upload_refusal_is_upload_failed SharedConstants.MAX_IMAGE_SIZE
                  (fun _ => Ok (UploadImage.refusal 401 "Unauthorized" "please log in"))
                  CreateTokenWithImage.test_image
                  (UploadImage.refusal 401 "Unauthorized" "please log in") "please log in"
                  eq_refl eq_refl eq_refl eq_refl)).
Defined.

(** The outcomes of [uploadImageToIPFS]. *)
Lemma upload_outcomes :
  forall (MAX_IMAGE_SIZE : Z)
         (fetch : option UploadImage.File -> Result JS.JSValue UploadImage.Response)
         (imageFile : option UploadImage.File),
    match UploadImage.uploadImageToIPFS MAX_IMAGE_SIZE fetch imageFile with
    | Ok url => url <> ""
    | Err (UploadImage.Classified e) =>
        In (ErrorHandling.type e)
           [ErrorHandling.UPLOAD_FAILED; ErrorHandling.AUTHENTICATION_ERROR;
            ErrorHandling.NETWORK_ERROR]
    | Err (UploadImage.Unclassified exn) =>
        exists raw,
          (fetch imageFile = Err raw \/
           exists response, fetch imageFile = Ok response /\ UploadImage.json response = Err raw) /\
          ErrorHandling.parseUploadError raw = Err exn
    end /\
    (forall e,
       UploadImage.validateImageFile MAX_IMAGE_SIZE imageFile = Err e ->
       forall fetch',
         UploadImage.uploadImageToIPFS MAX_IMAGE_SIZE fetch' imageFile
         = Err (UploadImage.Classified e)).
Proof.
  intros MAX_IMAGE_SIZE fetch imageFile. split.
  - unfold UploadImage.uploadImageToIPFS.
    destruct (UploadImage.try_upload MAX_IMAGE_SIZE fetch imageFile)
      as [url | [e | raw]] eqn:Htry.
    + unfold UploadImage.try_upload in Htry.
      destruct (UploadImage.validateImageFile _ _) as [[] |]; [| discriminate].
      destruct (fetch imageFile) as [response |]; [| discriminate].
      destruct (UploadImage.ok response); cbn in Htry; [| discriminate].
      destruct (UploadImage.json response) as [data |]; [| discriminate].
      destruct (UploadImage.imageUrl data) as [u |]; [| discriminate].
      destruct (String.eqb_spec u "") as [| Hne]; [discriminate |].
      now injection Htry as <-.
    + rewrite (try_upload_classified _ _ _ _ Htry). cbn. tauto.
    + destruct (ErrorHandling.parseUploadError raw) as [e | exn] eqn:Hparse.
      * destruct (proj2 (classifiers_range raw e) Hparse) as [_ Hin].
        cbn in *. tauto.
      * exists raw. split; [| exact Hparse].
        unfold UploadImage.try_upload in Htry.
        destruct (UploadImage.validateImageFile _ _) as [[] |]; [| discriminate].
        destruct (fetch imageFile) as [response | raw'];
          [| injection Htry as ->; now left].
        destruct (UploadImage.ok response); cbn in Htry; [| discriminate].
        destruct (UploadImage.json response) as [data | raw'] eqn:Hjson;
          [| injection Htry as ->; right; exists response; split; [reflexivity | exact Hjson]].
        destruct (UploadImage.imageUrl data) as [u |]; [| discriminate].
        destruct (String.eqb u ""); discriminate.
  - intros e He fetch'. unfold UploadImage.uploadImageToIPFS, UploadImage.try_upload.
    now rewrite He.
Qed.

(** X17.  What [uploadImageToIPFS] can give: a URL that is not empty; or
    a [TokenCreationError] that is UPLOAD_FAILED, AUTHENTICATION_ERROR or
    NETWORK_ERROR; or, only when [fetch] or [json()] threw a raw error on
    which [parseUploadError] itself throws, that exception.  A file that
    does not pass [validateImageFile] is refused before any request. *)
Theorem X17_upload_outcomes :
  forall (MAX_IMAGE_SIZE : Z)
         (fetch : option UploadImage.File -> Result JS.JSValue UploadImage.Response)
         (imageFile : option UploadImage.File),
    match UploadImage.uploadImageToIPFS MAX_IMAGE_SIZE fetch imageFile with
    | Ok url => url <> ""
    | Err (UploadImage.Classified e) =>
        In (ErrorHandling.type e)
           [ErrorHandling.UPLOAD_FAILED; ErrorHandling.AUTHENTICATION_ERROR;
            ErrorHandling.NETWORK_ERROR]
    | Err (UploadImage.Unclassified exn) =>
        exists raw,
          (fetch imageFile = Err raw \/
           exists response, fetch imageFile = Ok response /\ UploadImage.json response = Err raw) /\
          ErrorHandling.parseUploadError raw = Err exn
    end /\
    (forall e,
       UploadImage.validateImageFile MAX_IMAGE_SIZE imageFile = Err e ->
       forall fetch',
         UploadImage.uploadImageToIPFS MAX_IMAGE_SIZE fetch' imageFile
         = Err (UploadImage.Classified e)).
Proof. exact upload_outcomes. Qed.

Lemma X15_validate_image_file_witness :
  UploadImage.validateImageFile SharedConstants.MAX_IMAGE_SIZE
    (Some {| UploadImage.file_size := 204800; UploadImage.file_type := "Image/PNG" |}) = Ok ().
Proof.
  apply (proj2 (proj1 (X15_validate_image_file SharedConstants.MAX_IMAGE_SIZE
                         {| UploadImage.file_size := 204800; UploadImage.file_type := "Image/PNG" |}))).
  split; [cbn; unfold SharedConstants.MAX_IMAGE_SIZE; lia | reflexivity].
Defined.

Lemma X17_upload_outcomes_witness :
  UploadImage.uploadImageToIPFS SharedConstants.MAX_IMAGE_SIZE
    (fun _ => Err (JS.JSObj {[ "message" := JS.JSStr "Failed to fetch" ]})) None
  = Err (UploadImage.Classified
           {| ErrorHandling.type := ErrorHandling.UPLOAD_FAILED;
              ErrorHandling.message := "No image file provided";
              ErrorHandling.originalError := JS.JSNull |}).
Proof.
  apply (proj2 (X17_upload_outcomes SharedConstants.MAX_IMAGE_SIZE
                  (fun _ => Ok (UploadImage.accepted (Some "ipfs://image"))) None)).
  reflexivity.
Defined.

(** ** The complete workflow *)

Section WorkflowFacts.
Import JS ErrorHandling Constants CreateToken UploadImage CreateTokenWithImage.

(** An instance of a built-in error class carries a text message. *)
Lemma exception_value_message (exn : Exception) :
  (forall v, exn <> Thrown v) ->
  exists m, raw_message (exception_value exn) = JSStr m.
Proof.
  intros Hclass. destruct exn as [m | m | m | v]; [| | | now destruct (Hclass v)];
    exists m; unfold raw_message, or_value; (destruct m; [reflexivity | reflexivity]).
Qed.

(** The one exception the classifiers raise themselves. *)
Lemma call_includes_throws (v : JSValue) (pat : string) (exn : Exception) :
  call_includes v pat = Err exn ->
  exn = TypeError "errorMessage.includes is not a function" /\ forall m, v <> JSStr m.
Proof. destruct v; cbn; intros [= <-]; (split; [reflexivity | discriminate]) || discriminate. Qed.

Lemma parseBlockchainError_throws (error : JSValue) (exn : Exception) :
  parseBlockchainError error = Err exn ->
  exn = TypeError "errorMessage.includes is not a function" /\
  forall m, raw_message error <> JSStr m.
Proof.
  intros Hthrow.
  destruct (raw_message error) as [| | b | n | m | fields] eqn:Hm;
    try (unfold parseBlockchainError in Hthrow; rewrite Hm in Hthrow;
         injection Hthrow as <-; split; [reflexivity | discriminate]).
  rewrite (parseBlockchainError_text error m Hm) in Hthrow. discriminate.
Qed.





End WorkflowFacts.



(** X19.  When the transaction is mined but [createTokenOnContract] could
    not extract an address (none, or an empty one), [createTokenWithImage]
    does not return the transaction hash: it throws UNKNOWN_ERROR with the
    message "An unexpected error occurred: Token creation failed: No token
    address returned". *)
Theorem X19_workflow_fails_without_address :
  forall (MAX_IMAGE_SIZE : Z)
         (fetch : option UploadImage.File -> Result JS.JSValue UploadImage.Response)
         (contracts : string -> CreateToken.MainContract) (NETWORK : Constants.Network)
         (imageFile : option UploadImage.File)
         (tokenDetails : CreateTokenWithImage.TokenCreationParams) (isTestnet : bool)
         (imageUrl : string) (result : CreateToken.LaunchResult),
    UploadImage.uploadImageToIPFS MAX_IMAGE_SIZE fetch imageFile = Ok imageUrl ->
    CreateToken.createTokenOnContract contracts NETWORK
      (CreateTokenWithImage.with_image tokenDetails imageUrl) isTestnet = Ok result ->
    CreateToken.tokenAddress result = None \/ CreateToken.tokenAddress result = Some "" ->
    CreateTokenWithImage.createTokenWithImage MAX_IMAGE_SIZE fetch contracts NETWORK
      imageFile tokenDetails isTestnet
    = Err (UploadImage.Classified
             {| ErrorHandling.type := ErrorHandling.UNKNOWN_ERROR;
                ErrorHandling.message :=
                  "An unexpected error occurred: Token creation failed: No token address returned";
                ErrorHandling.originalError :=
                  CreateTokenWithImage.exception_value
                    (JS.Error "Token creation failed: No token address returned") |}).
Proof.
  intros MAX_IMAGE_SIZE fetch contracts NETWORK imageFile tokenDetails isTestnet imageUrl
    result Hup Hcreate Haddr.
  unfold CreateTokenWithImage.createTokenWithImage, CreateTokenWithImage.try_create.
  rewrite Hup, Hcreate. destruct Haddr as [-> | ->]; reflexivity.
Qed.

Lemma X19_workflow_fails_without_address_witness :
  CreateTokenWithImage.createTokenWithImage SharedConstants.MAX_IMAGE_SIZE
    (fun _ => Ok (UploadImage.accepted (Some "ipfs://image")))
    (fun _ => CreateToken.fake_contract 100 []) SharedConstants.NETWORK
    CreateTokenWithImage.test_image CreateTokenWithImage.test_details false
  = Err (UploadImage.Classified
           {| ErrorHandling.type := ErrorHandling.UNKNOWN_ERROR;
              ErrorHandling.message :=
                "An unexpected error occurred: Token creation failed: No token address returned";
              ErrorHandling.originalError :=
                CreateTokenWithImage.exception_value
                  (JS.Error "Token creation failed: No token address returned") |}).
Proof.
  apply (X19_workflow_fails_without_address SharedConstants.MAX_IMAGE_SIZE
           (fun _ => Ok (UploadImage.accepted (Some "ipfs://image")))
           (fun _ => CreateToken.fake_contract 100 []) SharedConstants.NETWORK
           CreateTokenWithImage.test_image CreateTokenWithImage.test_details false
           "ipfs://image"
           {| CreateToken.txHash := "0xhash:100000000000000100";
              CreateToken.tokenAddress := None |});
    [reflexivity | reflexivity | now left].
Defined.

(** X20.  A result of [createTokenWithImage] always holds a token address
    that is not empty, the hash of the transaction and the URL the upload
    returned, and that URL is the image the contract was called with. *)
Theorem X20_workflow_result :
  forall (MAX_IMAGE_SIZE : Z)
         (fetch : option UploadImage.File -> Result JS.JSValue UploadImage.Response)
         (contracts : string -> CreateToken.MainContract) (NETWORK : Constants.Network)
         (imageFile : option UploadImage.File)
         (tokenDetails : CreateTokenWithImage.TokenCreationParams) (isTestnet : bool)
         (r : CreateTokenWithImage.TokenCreationResult),
    CreateTokenWithImage.createTokenWithImage MAX_IMAGE_SIZE fetch contracts NETWORK
      imageFile tokenDetails isTestnet = Ok r ->
    CreateTokenWithImage.r_tokenAddress r <> "" /\
    CreateTokenWithImage.r_imageUrl r <> "" /\
    UploadImage.uploadImageToIPFS MAX_IMAGE_SIZE fetch imageFile
    = Ok (CreateTokenWithImage.r_imageUrl r) /\
    CreateToken.createTokenOnContract contracts NETWORK
      (CreateTokenWithImage.with_image tokenDetails (CreateTokenWithImage.r_imageUrl r)) isTestnet
    = Ok {| CreateToken.txHash := CreateTokenWithImage.r_txHash r;
            CreateToken.tokenAddress := Some (CreateTokenWithImage.r_tokenAddress r) |}.
Proof.
  intros MAX_IMAGE_SIZE fetch contracts NETWORK imageFile tokenDetails isTestnet r.
  unfold CreateTokenWithImage.createTokenWithImage.
  destruct (CreateTokenWithImage.try_create _ _ _ _ _ _ _) as [r' | [e | x]] eqn:Htry.
  - intros [= ->]. unfold CreateTokenWithImage.try_create in Htry.
    pose proof (proj1 (upload_outcomes MAX_IMAGE_SIZE fetch imageFile)) as Hurl.
    destruct (UploadImage.uploadImageToIPFS MAX_IMAGE_SIZE fetch imageFile)
      as [imageUrl |]; [| discriminate].
    destruct (CreateToken.createTokenOnContract _ _ _ _) as [[hash addr] |] eqn:Hcreate;
      [| discriminate].
    cbn in Htry. destruct addr as [addr |]; [| discriminate].
    destruct (String.eqb_spec addr "") as [| Hne]; [discriminate |].
    injection Htry as <-. cbn. repeat split; assumption.
  - discriminate.
  - destruct (ErrorHandling.parseBlockchainError _); discriminate.
Qed.

Lemma X20_workflow_result_witness :
  "0xAAA" <> "" /\ "ipfs://image" <> "" /\
  UploadImage.uploadImageToIPFS SharedConstants.MAX_IMAGE_SIZE
    (fun _ => Ok (UploadImage.accepted (Some "ipfs://image"))) CreateTokenWithImage.test_image
  = Ok "ipfs://image" /\
  CreateToken.createTokenOnContract (fun _ => CreateToken.fake_contract 100 CreateToken.test_logs)
    SharedConstants.NETWORK
    (CreateTokenWithImage.with_image CreateTokenWithImage.test_details "ipfs://image") false
  = Ok {| CreateToken.txHash := "0xhash:100000000000000100";
          CreateToken.tokenAddress := Some "0xAAA" |}.
Proof.
  apply (X20_workflow_result SharedConstants.MAX_IMAGE_SIZE
           (fun _ => Ok (UploadImage.accepted (Some "ipfs://image")))
           (fun _ => CreateToken.fake_contract 100 CreateToken.test_logs)
           SharedConstants.NETWORK CreateTokenWithImage.test_image
           CreateTokenWithImage.test_details false
           {| CreateTokenWithImage.r_tokenAddress := "0xAAA";
              CreateTokenWithImage.r_txHash := "0xhash:100000000000000100";
              CreateTokenWithImage.r_imageUrl := "ipfs://image" |}).
  reflexivity.
Defined.

(** X21.  A transaction that fails while its receipt is awaited makes the
    shipped [createTokenOnContract] throw that failure, provided the fee
    and the total fit the 512 bits of the log lines that format them (the
    transaction is not sent otherwise); the snippet, which does not await
    the receipt, returns the hash as a success in the same situation. *)
Theorem X21_failed_receipt :
  forall (contract : CreateToken.MainContract) (NETWORK : Constants.Network)
         (tokenInfo : CreateToken.TokenInfo) (isTestnet : bool) (fee v : Z)
         (tx : CreateToken.TransactionResponse) (e : JS.Exception),
    CreateToken.creationFee_ contract = Ok fee ->
    Ethers.parseEther (CreateToken.initAmountIn tokenInfo) = Ok v ->
    CreateToken.createNewToken contract (CreateToken.call_args tokenInfo (fee + v)) = Ok tx ->
    CreateToken.wait tx = Err e ->
    (Ethers.in_range_512 fee = true -> Ethers.in_range_512 (fee + v) = true ->
     CreateToken.createTokenOnContract (fun _ => contract) NETWORK tokenInfo isTestnet
     = Err e) /\
    CreateTokenSnippet.createTokenOnContract (fun _ => contract) tokenInfo
    = Ok {| CreateToken.txHash := CreateToken.hash tx; CreateToken.tokenAddress := None |}.
Proof.
  intros contract NETWORK tokenInfo isTestnet fee v tx e Hfee Hv Htx Hwait. split.
  - intros Hrf Hrt.
    rewrite (createTokenOnContract_sends (fun _ => contract) NETWORK tokenInfo isTestnet
               fee v Hfee Hv Hrf Hrt).
    rewrite Htx. cbn [mbind result_bind]. unfold CreateToken.await_and_extract.
    now rewrite Hwait.
  - unfold CreateTokenSnippet.createTokenOnContract. rewrite Hfee. cbn [mbind result_bind].
    rewrite Hv. cbn [mbind result_bind]. rewrite Htx. reflexivity.
Qed.

Lemma X21_failed_receipt_witness :
  CreateToken.createTokenOnContract (fun _ => LaunchBackends.reverting_contract 100)
    SharedConstants.NETWORK (CreateToken.test_token "0.1") false
  = Err (JS.Error "transaction execution reverted") /\
  CreateTokenSnippet.createTokenOnContract (fun _ => LaunchBackends.reverting_contract 100)
    (CreateToken.test_token "0.1")
  = Ok {| CreateToken.txHash :=
            CreateToken.hash
              {| CreateToken.hash := "0xhash:100000000000000100";
                 CreateToken.wait := Err (JS.Error "transaction execution reverted") |};
          CreateToken.tokenAddress := None |}.
Proof.
  destruct (X21_failed_receipt (LaunchBackends.reverting_contract 100) SharedConstants.NETWORK
              (CreateToken.test_token "0.1") false 100 (10 ^ 17)
              {| CreateToken.hash := "0xhash:100000000000000100";
                 CreateToken.wait := Err (JS.Error "transaction execution reverted") |}
              (JS.Error "transaction execution reverted")
              eq_refl eq_refl eq_refl eq_refl) as [Hshipped Hsnippet].
  split; [exact (Hshipped eq_refl eq_refl) | exact Hsnippet].
Defined.

(** X22.  When the request itself fails, or the body of an ok answer
    cannot be read, with a raw error that has no status and a text
    message containing neither "unauthorized" nor "too large",
    [uploadImageToIPFS] throws NETWORK_ERROR, the raw error kept as its
    cause. *)
Theorem X22_upload_raw_error_is_network_error :
  forall (MAX_IMAGE_SIZE : Z)
         (fetch : option UploadImage.File -> Result JS.JSValue UploadImage.Response)
         (imageFile : option UploadImage.File) (raw : JS.JSValue) (m : string),
    UploadImage.validateImageFile MAX_IMAGE_SIZE imageFile = Ok () ->
    (fetch imageFile = Err raw \/
     exists response,
       fetch imageFile = Ok response /\ UploadImage.ok response = true /\
       UploadImage.json response = Err raw) ->
    JS.truthy (JS.opt_get raw "status") = false ->
    ErrorHandling.raw_message raw = JS.JSStr m ->
    JS.includes m "unauthorized" = false ->
    JS.includes m "too large" = false ->
    UploadImage.uploadImageToIPFS MAX_IMAGE_SIZE fetch imageFile
    = Err (UploadImage.Classified
             {| ErrorHandling.type := ErrorHandling.NETWORK_ERROR;
                ErrorHandling.message :=
                  "Network error during upload. Please check your internet connection and try again.";
                ErrorHandling.originalError := raw |}).
Proof.
  intros MAX_IMAGE_SIZE fetch imageFile raw m Hv Hraw Hs Hm Hu Hl.
  assert (Hparse : ErrorHandling.parseUploadError raw
                   = Ok {| ErrorHandling.type := ErrorHandling.NETWORK_ERROR;
                           ErrorHandling.message :=
                             "Network error during upload. Please check your internet connection and try again.";
                           ErrorHandling.originalError := raw |}).
  { unfold ErrorHandling.parseUploadError. rewrite (status_falsy raw Hs), Hm. cbn.
    rewrite Hu. cbn. rewrite Hl. cbn. now destruct (JS.includes m "network"). }
  unfold UploadImage.uploadImageToIPFS, UploadImage.try_upload. rewrite Hv.
  destruct Hraw as [-> | (response & -> & Hok & Hjson)].
  - cbv beta iota. now rewrite Hparse.
  - rewrite Hok. cbn [negb]. rewrite Hjson. cbv beta iota. now rewrite Hparse.
Qed.

Lemma X22_upload_raw_error_witness :
  UploadImage.uploadImageToIPFS SharedConstants.MAX_IMAGE_SIZE
    (fun _ => Err (JS.JSObj {[ "message" := JS.JSStr "Failed to fetch" ]}))
    CreateTokenWithImage.test_image
  = Err (UploadImage.Classified
           {| ErrorHandling.type := ErrorHandling.NETWORK_ERROR;
              ErrorHandling.message :=
                "Network error during upload. Please check your internet connection and try again.";
              ErrorHandling.originalError := JS.JSObj {[ "message" := JS.JSStr "Failed to fetch" ]} |}).
Proof.
  apply (X22_upload_raw_error_is_network_error SharedConstants.MAX_IMAGE_SIZE
           (fun _ => Err (JS.JSObj {[ "message" := JS.JSStr "Failed to fetch" ]}))
           CreateTokenWithImage.test_image
           (JS.JSObj {[ "message" := JS.JSStr "Failed to fetch" ]}) "Failed to fetch");
    try reflexivity.
  now left.
Defined.
